(** * SFNO layers and the spherical Gaussian random field: a shallow embedding

    Sources embedded here:
    - [paddle_harmonics/examples/sfno/models/layers.py]
      ([_no_grad_trunc_normal_], [trunc_normal_], [drop_path], [DropPath],
      [MLP], [RealFFT2], [InverseRealFFT2], [SpectralConvS2],
      [FactorizedSpectralConvS2]);
    - [ppsci/arch/paddle_harmonics/random_fields.py] ([GaussianRandomFieldS2]).

    Conventions.
    - Python floats and tensor entries are idealised as real numbers ([R]):
      rounding, infinities and NaN are outside the model.
    - A Python exception is a value of [PyExc]; code that may raise returns
      [result A].
    - A tensor carries its [dtype], its [shape] and its entries as a function
      of the multi-index, so that broadcasting, [squeeze], [as_real] and
      [as_complex] are the index maps the framework performs.
    - Random draws are explicit arguments (the values the generator returned).
    - Framework operations that the repository only calls (transforms,
      contractions, convolutions, rounding to a precision) are interfaces
      ([Class]es) the definitions are parametric in.
    - A framework call that the source writes with a keyword or an argument
      the framework does not take raises where the source makes it; the
      statements after it are kept, bound after the failing call. *)

From Stdlib Require Import Reals Lra Lia List String Ascii Bool Arith.
Import ListNotations.

Set Implicit Arguments.
Local Open Scope R_scope.
Local Open Scope string_scope.

(* ================================================================== *)
(** * Python runtime: exceptions, truthiness, classes, calls *)
(* ================================================================== *)

Module Py.

(** The exceptions the two source files can raise.  [FrameworkError call]
    is the exception a Paddle call raises when the framework has no such
    attribute or refuses the arguments as written; its Python class
    ([AttributeError], [TypeError], [ValueError]) depends on the Paddle
    version, so only the refused call is recorded. *)
Inductive PyExc : Type :=
| AssertionError (msg : string)
| NotImplementedError (msg : string)
| TypeError (msg : string)
| ValueError (msg : string)
| IndexError (msg : string)
| ZeroDivisionError (msg : string)
| FrameworkError (call : string).

(** A computation that returns a value or raises. *)
Definition result (A : Type) : Type := (PyExc + A)%type.

Definition Ok {A} (a : A) : result A := inr a.
Definition Raise {A} (e : PyExc) : result A := inl e.

Definition bind {A B} (c : result A) (k : A -> result B) : result B :=
  match c with
  | inl e => inl e
  | inr a => k a
  end.

(** [assert cond, msg] *)
Definition py_assert (cond : bool) (msg : string) : result unit :=
  if cond then Ok tt else Raise (AssertionError msg).

Definition raises {A} (c : result A) : Prop :=
  match c with inl _ => True | inr _ => False end.

Definition returns {A} (c : result A) : Prop :=
  match c with inl _ => False | inr _ => True end.

(** [a or b] on an optional integer: [None] and [0] are falsy. *)
Definition or_int (a : option nat) (b : nat) : nat :=
  match a with
  | None => b
  | Some 0%nat => b
  | Some n => n
  end.

(** ** Classes and [super] *)

(** The classes of [layers.py], [nn.Layer] and [object]. *)
Inductive PyClass : Type :=
| cls_object
| cls_Layer
| cls_DropPath
| cls_MLP
| cls_RealFFT2
| cls_InverseRealFFT2
| cls_SpectralConvS2
| cls_FactorizedSpectralConvS2.

Definition PyClass_eqb (c d : PyClass) : bool :=
  match c, d with
  | cls_object, cls_object
  | cls_Layer, cls_Layer
  | cls_DropPath, cls_DropPath
  | cls_MLP, cls_MLP
  | cls_RealFFT2, cls_RealFFT2
  | cls_InverseRealFFT2, cls_InverseRealFFT2
  | cls_SpectralConvS2, cls_SpectralConvS2
  | cls_FactorizedSpectralConvS2, cls_FactorizedSpectralConvS2 => true
  | _, _ => false
  end.

(** The base named in each [class C(B):] statement; every class of
    [layers.py] is declared [class C(nn.Layer)]. *)
Definition base (c : PyClass) : option PyClass :=
  match c with
  | cls_object => None
  | cls_Layer => Some cls_object
  | cls_DropPath | cls_MLP | cls_RealFFT2 | cls_InverseRealFFT2
  | cls_SpectralConvS2 | cls_FactorizedSpectralConvS2 => Some cls_Layer
  end.

(** Method resolution order under single inheritance: the class followed
    by the order of its base.  The hierarchy has depth three. *)
Fixpoint mro_fuel (fuel : nat) (c : PyClass) : list PyClass :=
  match fuel with
  | O => [c]
  | S fuel' =>
      match base c with
      | None => [c]
      | Some b => c :: mro_fuel fuel' b
      end
  end.

Definition mro (c : PyClass) : list PyClass := mro_fuel 3 c.

Definition isinstance (obj_cls cls : PyClass) : bool :=
  existsb (PyClass_eqb cls) (mro obj_cls).

(** The classes after [cls] in an order. *)
Fixpoint after (cls : PyClass) (l : list PyClass) : list PyClass :=
  match l with
  | [] => []
  | c :: l' => if PyClass_eqb cls c then l' else after cls l'
  end.

(** [super(cls, self)] for [self] an instance of [obj_cls]: Python refuses
    a [self] that is not an instance of [cls]; otherwise the lookup starts
    at the class after [cls] in the order of [type(self)]. *)
Definition py_super (cls obj_cls : PyClass) : result (list PyClass) :=
  if isinstance obj_cls cls
  then Ok (after cls (mro obj_cls))
  else Raise (TypeError "super(type, obj): obj must be an instance or subtype of type").

(** ** Keyword arguments *)

(** The part of a function's signature that decides whether a call
    binds: the parameter names, and whether a [**kwargs] catch-all is
    declared. *)
Record Signature : Type := mkSignature {
  fn_name : string;
  params : list string;
  var_keyword : bool
}.

Definition unexpected_keyword (sig : Signature) (kw : list string) : option string :=
  find (fun k => negb (existsb (String.eqb k) (params sig))) kw.

(** Binding the keywords of a call: a keyword that names no parameter is
    a [TypeError] unless the function declares [**kwargs]. *)
Definition bind_keywords (sig : Signature) (kw : list string) : result unit :=
  match unexpected_keyword sig kw with
  | Some k =>
      if var_keyword sig then Ok tt
      else Raise (TypeError (fn_name sig ++ "() got an unexpected keyword argument '" ++ k ++ "'"))
  | None => Ok tt
  end.

(** The value a keyword carries in a call, if the call passes it. *)
Fixpoint kwarg {V} (name : string) (kwargs : list (string * V)) : option V :=
  match kwargs with
  | [] => None
  | (k, v) :: rest => if String.eqb name k then Some v else kwarg name rest
  end.

(** ** Strings *)

Definition lower_ascii (c : ascii) : ascii :=
  let n := nat_of_ascii c in
  if (65 <=? n)%nat && (n <=? 90)%nat then ascii_of_nat (n + 32) else c.

(** [str.lower] on ASCII text. *)
Fixpoint lower (s : string) : string :=
  match s with
  | EmptyString => EmptyString
  | String c s' => String (lower_ascii c) (lower s')
  end.

(** [s.startswith(p)] *)
Definition startswith (s p : string) : bool := String.prefix p s.

End Py.

Export Py.

Declare Scope py_scope.
Notation "x <- c ;; k" := (Py.bind c (fun x => k))
(at level 61, c at next level, right associativity) : py_scope.
Notation "c ;;; k" := (Py.bind c (fun _ => k))
(at level 61, right associativity) : py_scope.
Local Open Scope py_scope.

(* ================================================================== *)
(** * Tensors *)
(* ================================================================== *)

Module Tensors.

Inductive DType : Type :=
| float16 | float32 | float64 | complex64 | complex128 | int64.

(** Complex entries as (real, imaginary). *)
Definition C : Type := (R * R)%type.

(** A tensor with entries in [V]: real tensors are [Tensor R], complex
    ones [Tensor C]. *)
Record Tensor (V : Type) : Type := mkTensor {
  dtype : DType;
  shape : list nat;
  elem : list nat -> V
}.

Definition ndim {V} (t : Tensor V) : nat := List.length (shape t).

(** Elementwise map (the in-place [op_] methods return the same buffer
    with new entries). *)
Definition tmap {V W} (f : V -> W) (d : DType) (t : Tensor V) : Tensor W :=
  {| dtype := d; shape := shape t; elem := fun i => f (elem t i) |}.

(** [paddle.ones(shape)], [paddle.zeros(shape)]: float32 by default. *)
Definition full (s : list nat) (v : R) : Tensor R :=
  {| dtype := float32; shape := s; elem := fun _ => v |}.

(** ** Broadcasting *)

(** Shapes are aligned on their last axis; two extents are compatible
    when they are equal or one of them is 1. *)
Fixpoint broadcast_rev (s1 s2 : list nat) : option (list nat) :=
  match s1, s2 with
  | [], s => Some s
  | s, [] => Some s
  | d1 :: r1, d2 :: r2 =>
      match broadcast_rev r1 r2 with
      | None => None
      | Some r =>
          if (d1 =? d2)%nat then Some (d1 :: r)
          else if (d1 =? 1)%nat then Some (d2 :: r)
          else if (d2 =? 1)%nat then Some (d1 :: r)
          else None
      end
  end.

Definition broadcast_shapes (s1 s2 : list nat) : option (list nat) :=
  option_map (@rev nat) (broadcast_rev (rev s1) (rev s2)).

(** The index of an operand of shape [s] that feeds entry [idx] of the
    broadcast result: the trailing axes of [idx], with 0 on the axes where
    the operand has extent 1. *)
Fixpoint project_rev (s idx : list nat) : list nat :=
  match s, idx with
  | [], _ => []
  | _ :: _, [] => []
  | d :: s', i :: idx' => (if (d =? 1)%nat then 0%nat else i) :: project_rev s' idx'
  end.

Definition project (s idx : list nat) : list nat :=
  rev (project_rev (rev s) (rev idx)).

(** A binary elementwise operation with broadcasting; incompatible shapes
    raise. *)
Definition broadcast_op {V W X} (f : V -> W -> X) (d : DType)
    (a : Tensor V) (b : Tensor W) : result (Tensor X) :=
  match broadcast_shapes (shape a) (shape b) with
  | None => Raise (ValueError "Broadcast dimension mismatch")
  | Some s =>
      Ok {| dtype := d;
            shape := s;
            elem := fun idx => f (elem a (project (shape a) idx))
                                 (elem b (project (shape b) idx)) |}
  end.

(** ** Squeeze, real and complex views *)

(** [x.squeeze()] without an axis drops every axis of extent 1. *)
Definition squeeze_shape (s : list nat) : list nat :=
  filter (fun d => negb (d =? 1)%nat) s.

(** The index in the original tensor of entry [idx] of the squeezed one. *)
Fixpoint unsqueeze_index (s idx : list nat) : list nat :=
  match s with
  | [] => []
  | d :: s' =>
      if (d =? 1)%nat then 0%nat :: unsqueeze_index s' idx
      else match idx with
           | [] => 0%nat :: unsqueeze_index s' []
           | i :: idx' => i :: unsqueeze_index s' idx'
           end
  end.

Definition squeeze {V} (t : Tensor V) : Tensor V :=
  {| dtype := dtype t;
     shape := squeeze_shape (shape t);
     elem := fun idx => elem t (unsqueeze_index (shape t) idx) |}.

(** [x.unsqueeze(0)] *)
Definition unsqueeze0 {V} (t : Tensor V) : Tensor V :=
  {| dtype := dtype t;
     shape := 1%nat :: shape t;
     elem := fun idx => elem t (tl idx) |}.

Definition complex_of (d : DType) : DType :=
  match d with float64 => complex128 | _ => complex64 end.

Definition real_of (d : DType) : DType :=
  match d with complex128 => float64 | _ => float32 end.

(** [paddle.as_complex]: the last axis must have extent 2 and becomes the
    (real, imaginary) pair. *)
Definition as_complex (t : Tensor R) : result (Tensor C) :=
  match rev (shape t) with
  | 2%nat :: r =>
      Ok {| dtype := complex_of (dtype t);
            shape := rev r;
            elem := fun idx => (elem t (idx ++ [0%nat]), elem t (idx ++ [1%nat])) |}
  | _ => Raise (ValueError "as_complex: the last axis must have size 2")
  end.

(** Part [c] of a complex entry: 0 the real part, 1 the imaginary one. *)
Definition part (c : nat) (z : C) : R :=
  match c with
  | O => fst z
  | _ => snd z
  end.

(** [paddle.as_real]: a trailing axis of extent 2 holds the parts. *)
Definition as_real (t : Tensor C) : Tensor R :=
  {| dtype := real_of (dtype t);
     shape := shape t ++ [2%nat];
     elem := fun idx => part (last idx 0%nat) (elem t (removelast idx)) |}.

(** Rounding of an entry to the precision of a dtype: supplied by the
    framework. *)
Class Precision : Type := {
  round_to : DType -> R -> R
}.

(** [x.to(dtype)] / [x.astype(dtype)] on a real tensor. *)
Definition astype `{Precision} (d : DType) (t : Tensor R) : Tensor R :=
  tmap (round_to d) d t.

End Tensors.

Export Tensors.

(* ================================================================== *)
(** * Python floats (idealised) *)
(* ================================================================== *)

Module Floats.

Definition Rltb (x y : R) : bool := if Rlt_dec x y then true else false.
Definition Reqb (x y : R) : bool := if Req_dec_T x y then true else false.

(** [x / y] on Python numbers raises on a zero divisor. *)
Definition float_div (x y : R) : result R :=
  if Reqb y 0 then Raise (ZeroDivisionError "float division by zero")
  else Ok (x / y).

(** [math.sqrt] raises on a negative argument. *)
Definition math_sqrt (x : R) : result R :=
  if Rltb x 0 then Raise (ValueError "math domain error")
  else Ok (sqrt x).

(** [floor] of a real, as a real. *)
Definition floor (x : R) : R := IZR (Int_part x).

(** [math.erf] and the tensor method [erfinv_]. *)
Class SpecialFunctions : Type := {
  erf : R -> R;
  erfinv : R -> R
}.

(** The power operator [**] on floats, where its value is real (on a
    positive base it is the real power), and the text [f"{x}"] of a float
    in a formatted string. *)
Class FloatPow : Type := {
  float_pow : R -> R -> R;
  float_pow_pos : forall x y, 0 < x -> float_pow x y = Rpower x y;
  float_str : R -> string
}.

End Floats.

Export Floats.

(* ================================================================== *)
(** * layers.py *)
(* ================================================================== *)

(** ** [_no_grad_trunc_normal_], [trunc_normal_] *)

Module TruncNormal.

(** An in-place elementwise method: same buffer, same dtype and shape. *)
Definition inplace (f : R -> R) (t : Tensor R) : Tensor R := tmap f (dtype t) t.

(** A statement on the tensor's buffer: from the buffer before it, the
    buffer after it together with the value returned or the exception
    raised.  What was written before an exception stays written. *)
Definition InPlace (A : Type) : Type := Tensor R -> Tensor R * result A.

(** A computation that leaves the buffer alone. *)
Definition pure {A} (r : result A) : InPlace A := fun buf => (buf, r).

Definition and_then {A B} (c : InPlace A) (k : A -> InPlace B) : InPlace B :=
  fun buf =>
    match c buf with
    | (buf', inl e) => (buf', inl e)
    | (buf', inr v) => k v buf'
    end.

(** [return tensor]: the buffer as it stands. *)
Definition return_tensor : InPlace (Tensor R) := fun buf => (buf, Ok buf).

(** [tensor.uniform_(lo, hi)]: the framework refuses bounds that are not
    in order; otherwise entry [i] is placed in [[lo, hi]] by the unit draw
    [rnd i] of the generator. *)
Definition uniform_ (lo hi : R) (rnd : list nat -> R) : InPlace unit :=
  fun buf =>
    if Rltb lo hi
    then ({| dtype := dtype buf; shape := shape buf;
             elem := fun i => lo + (hi - lo) * rnd i |}, Ok tt)
    else (buf, Raise (ValueError "uniform_ expects min to be less than max")).

(** [tensor.erfinv_()] *)
Definition erfinv_ `{SpecialFunctions} : InPlace unit :=
  fun buf => (inplace erfinv buf, Ok tt).

(** [tensor.mul_(c)] with [c] a Python float: the framework's in-place
    multiplication takes a tensor, and the call raises without writing. *)
Definition mul_ (c : R) : InPlace unit :=
  fun buf => (buf, Raise (FrameworkError "Tensor.mul_ with a float")).

(** [tensor.add_(c)] *)
Definition add_ (c : R) : InPlace unit :=
  fun buf => (inplace (fun v => v + c) buf, Ok tt).

(** [tensor.clamp_(min=a, max=b)] *)
Definition clamp_ (a b : R) : InPlace unit :=
  fun buf => (inplace (fun v => Rmin (Rmax v a) b) buf, Ok tt).

Definition norm_cdf `{SpecialFunctions} (x : R) : R :=
  (1 + erf (x / sqrt 2)) / 2.

Definition trunc_warning : string :=
  "mean is more than 2 std from [a, b] in nn.init.trunc_normal_. The distribution of values may be incorrect.".

(** What a call leaves behind: the buffer of the tensor it was given, the
    warnings emitted, and the tensor returned or the exception raised. *)
Record Filled : Type := mkFilled {
  buffer : Tensor R;
  warned : list string;
  outcome : result (Tensor R)
}.

Definition _no_grad_trunc_normal_ `{SpecialFunctions}
    (tensor : Tensor R) (mean std a b : R) (rnd : list nat -> R) : Filled :=
  let warnings :=
    if Rltb mean (a - 2 * std) || Rltb (b + 2 * std) mean
    then [trunc_warning] else [] in
  let body : InPlace (Tensor R) :=
    and_then (pure (float_div (a - mean) std)) (fun za =>
    let l := norm_cdf za in
    and_then (pure (float_div (b - mean) std)) (fun zb =>
    let u := norm_cdf zb in
    and_then (uniform_ (2 * l - 1) (2 * u - 1) rnd) (fun _ =>
    and_then erfinv_ (fun _ =>
    and_then (mul_ (std * sqrt 2)) (fun _ =>
    and_then (add_ mean) (fun _ =>
    and_then (clamp_ a b) (fun _ =>
    return_tensor))))))) in
  let (buf, r) := body tensor in
  {| buffer := buf; warned := warnings; outcome := r |}.

(** Defaults: [mean=0.0, std=1.0, a=-2.0, b=2.0]. *)
Definition trunc_normal_ `{SpecialFunctions}
    (tensor : Tensor R) (mean std a b : R) (rnd : list nat -> R) : Filled :=
  _no_grad_trunc_normal_ tensor mean std a b rnd.

End TruncNormal.

Export TruncNormal.

(** ** [drop_path], [DropPath] *)

Module DropPath.

(** [paddle.rand(shape, dtype=x.dtype, device=x.device)]: the framework has
    no such call (its tensors are placed, and [paddle.rand] takes no
    device), so it raises for every [x].  [rnd] is the draw the generator
    would have made, entries in [[0, 1)]. *)
Definition paddle_rand_on_device (shape : list nat) (d : DType)
    (rnd : list nat -> R) : result (Tensor R) :=
  Raise (FrameworkError "paddle.rand(shape, dtype=x.dtype, device=x.device)").

(** [x.div(c)] with [c] a Python float: refused by the framework as well. *)
Definition div_float (x : Tensor R) (c : R) : result (Tensor R) :=
  Raise (FrameworkError "Tensor.div with a float").

Definition drop_path (x : Tensor R) (drop_prob : R) (training : bool)
    (rnd : list nat -> R) : result (Tensor R) :=
  if Reqb drop_prob 0 || negb training then Ok x
  else
    let keep_prob := 1 - drop_prob in
    match shape x with
    | [] => Raise (IndexError "list index out of range")
    | n :: _ =>
        let shape := n :: repeat 1%nat (ndim x - 1) in
        r <- paddle_rand_on_device shape (dtype x) rnd ;;
        let random_tensor := tmap (fun v => keep_prob + v) (dtype x) r in
        let random_tensor := tmap floor (dtype x) random_tensor in
        q <- div_float x keep_prob ;;
        broadcast_op Rmult (dtype x) q random_tensor
    end.

Record t : Type := mk {
  drop_prob : option R;
  training : bool
}.

(** [DropPath(drop_prob=None)]; a fresh layer is in training mode. *)
Definition init (drop_prob : option R) : t :=
  {| drop_prob := drop_prob; training := true |}.

(** With [drop_prob=None] the test [None == 0.0] is false, and in training
    mode [1.0 - None] raises. *)
Definition forward (self : t) (x : Tensor R) (rnd : list nat -> R)
    : result (Tensor R) :=
  match drop_prob self with
  | Some p => drop_path x p (training self) rnd
  | None =>
      if negb (training self) then Ok x
      else Raise (TypeError "unsupported operand type(s) for -: 'float' and 'NoneType'")
  end.

End DropPath.

(** ** [MLP] *)

Module MLP.

(** How a parameter buffer was last filled. *)
Inductive Init : Type :=
| DefaultInit
| NormalInit (mean std : R)
| ConstantInit (value : R).

(** What [nn.Conv2D(in, out, kernel, bias=...)] holds: the extents, and the
    initialisation of its weight and of its bias (absent without bias). *)
Record Conv2D : Type := mkConv2D {
  in_channels : nat;
  out_channels : nat;
  kernel_size : nat;
  weight : Init;
  bias : option Init
}.

(** The constructor of [paddle.nn.Conv2D], as far as the call of
    [layers.py] depends on it: its signature.  The releases differ in it
    (the ones that name the bias [bias_attr] take no keyword [bias]). *)
Class ConvModule : Type := {
  Conv2D_sig : Signature
}.

(** [nn.Conv2D(in, out, kernel, bias=...)]: the keyword is bound, then the
    layer is built with or without a bias. *)
Definition Conv2D_new `{ConvModule}
    (in_channels out_channels kernel_size : nat) (bias : bool) : result Conv2D :=
  bind_keywords Conv2D_sig ["bias"] ;;;
  Ok {| in_channels := in_channels;
        out_channels := out_channels;
        kernel_size := kernel_size;
        weight := DefaultInit;
        bias := if bias then Some DefaultInit else None |}.

(** The module [..utils.initializer] that [layers.py] imports [init_normal_]
    and [init_constant_] from: the signature of [init_normal_] and the values
    its parameters default to. *)
Class Initializer : Type := {
  init_normal_sig : Signature;
  init_normal_default_mean : R;
  init_normal_default_std : R
}.

(** A call [init_normal_(buffer, k1=v1, ...)]: the keywords are bound, then
    the buffer is filled from the normal distribution of the bound [mean]
    and [std]. *)
Definition init_normal_ `{Initializer} (kwargs : list (string * R)) : result Init :=
  bind_keywords init_normal_sig (map fst kwargs) ;;;
  Ok (NormalInit
        (match kwarg "mean" kwargs with Some m => m | None => init_normal_default_mean end)
        (match kwarg "std" kwargs with Some s => s | None => init_normal_default_std end)).

(** [init_constant_(buffer, value)] *)
Definition init_constant_ (value : R) : Init := ConstantInit value.

(** The layers [nn.Sequential] can hold here.  The activation is the
    function the layer built by [act_layer()] applies. *)
Inductive Layer : Type :=
| L_conv (c : Conv2D)
| L_act (f : Tensor R -> Tensor R)
| L_drop (p : R).

Record t : Type := mk {
  checkpointing : bool;
  training : bool;
  fwd : list Layer
}.

(** Arguments of [MLP.__init__]; defaults [hidden_features=None],
    [out_features=None], [act_layer=nn.ReLU], [output_bias=False],
    [drop_rate=0.0], [checkpointing=False], [gain=1.0]. *)
Record Args : Type := mkArgs {
  in_features : nat;
  hidden_features : option nat;
  out_features : option nat;
  act_layer : Tensor R -> Tensor R;
  output_bias : bool;
  drop_rate : R;
  arg_checkpointing : bool;
  gain : R
}.

(** [init_normal_(c.weight, ...)] stores the filled weight in the layer. *)
Definition set_weight (c : Conv2D) (w : Init) : Conv2D :=
  {| in_channels := in_channels c; out_channels := out_channels c;
     kernel_size := kernel_size c; weight := w; bias := bias c |}.

(** [if c.bias is not None: init_constant_(c.bias, 0.0)] *)
Definition zero_bias (c : Conv2D) : Conv2D :=
  match bias c with
  | Some _ =>
      {| in_channels := in_channels c; out_channels := out_channels c;
         kernel_size := kernel_size c; weight := weight c;
         bias := Some (init_constant_ 0) |}
  | None => c
  end.

Definition init `{Initializer} `{ConvModule} (a : Args) : result t :=
  py_super cls_MLP cls_MLP ;;;
  py_assert (negb (arg_checkpointing a)) "Paddle not support checkpointing" ;;;
  let out_features := or_int (out_features a) (in_features a) in
  let hidden_features := or_int (hidden_features a) (in_features a) in
  (* first dense layer *)
  fc1 <- Conv2D_new (in_features a) hidden_features 1 true ;;
  q <- float_div 2 (INR (in_features a)) ;;
  scale <- math_sqrt q ;;
  w <- init_normal_ [("mean", 0); ("std", scale)] ;;
  let fc1 := zero_bias (set_weight fc1 w) in
  (* activation *)
  let act := act_layer a in
  (* output layer *)
  fc2 <- Conv2D_new hidden_features out_features 1 (output_bias a) ;;
  q <- float_div (gain a) (INR hidden_features) ;;
  scale <- math_sqrt q ;;
  w <- init_normal_ [("mena", 0); ("std", scale)] ;;
  let fc2 := zero_bias (set_weight fc2 w) in
  let fwd :=
    if Rltb 0 (drop_rate a)
    then let drop := L_drop (drop_rate a) in
         [L_conv fc1; L_act act; drop; L_conv fc2; drop]
    else [L_conv fc1; L_act act; L_conv fc2] in
  Ok {| checkpointing := arg_checkpointing a; training := true; fwd := fwd |}.

(** What the framework's layers compute. *)
Class LayerOps : Type := {
  conv2d : Conv2D -> Tensor R -> Tensor R;
  dropout2d : R -> bool -> (list nat -> R) -> Tensor R -> Tensor R
}.

(** One layer of a [Sequential].  [rng k] is the [k]-th draw of the
    generator; a dropout layer consumes one draw. *)
Definition apply_layer `{LayerOps} (training : bool) (rng : nat -> list nat -> R)
    (l : Layer) (st : Tensor R * nat) : Tensor R * nat :=
  let (x, k) := st in
  match l with
  | L_conv c => (conv2d c x, k)
  | L_act f => (f x, k)
  | L_drop p => (dropout2d p training (rng k) x, S k)
  end.

(** [nn.Sequential.forward]: the layers in order. *)
Definition Sequential_forward `{LayerOps} (training : bool) (rng : nat -> list nat -> R)
    (layers : list Layer) (st : Tensor R * nat) : Tensor R * nat :=
  fold_left (fun st l => apply_layer training rng l st) layers st.

Definition checkpoint_forward (self : t) (x : Tensor R) : result (Tensor R * nat) :=
  Raise (NotImplementedError "Paddle not support checkpoint_forward").

Definition forward `{LayerOps} (self : t) (rng : nat -> list nat -> R) (k : nat)
    (x : Tensor R) : result (Tensor R * nat) :=
  if checkpointing self then checkpoint_forward self x
  else Ok (Sequential_forward (training self) rng (fwd self) (x, k)).

End MLP.

(** ** [RealFFT2], [InverseRealFFT2] *)

Module Transforms.

(** What [SpectralConvS2] reads from a transform: the attributes [nlat],
    [nlon], [lmax], [mmax], and the call.  Spherical-harmonic transforms
    and the FFT wrappers are used through the same attributes. *)
Record Transform (A B : Type) : Type := mkTransform {
  nlat : nat;
  nlon : nat;
  lmax : nat;
  mmax : nat;
  call : Tensor A -> Tensor B
}.

(** The transforms the two wrappers stand for when they are handed to
    [SpectralConvS2] (the real transform truncated to the kept rows and
    columns, and the inverse transform onto [(nlat, nlon)]).  The forward
    pass of [RealFFT2] as [layers.py] writes it, keyword for keyword, is
    [FFTWrappers.RealFFT2_forward] below. *)
Class FFT : Type := {
  rfft2_truncated : nat -> nat -> Tensor R -> Tensor C;
  irfft2 : nat -> nat -> Tensor C -> Tensor R
}.

(** [RealFFT2(nlat, nlon, lmax=None, mmax=None)] *)
Definition RealFFT2 `{FFT} (nlat nlon : nat) (lmax mmax : option nat) : Transform R C :=
  let lmax := or_int lmax nlat in
  let mmax := or_int mmax (nlon / 2 + 1) in
  {| nlat := nlat; nlon := nlon; lmax := lmax; mmax := mmax;
     call := rfft2_truncated lmax mmax |}.

(** [InverseRealFFT2(nlat, nlon, lmax=None, mmax=None)] *)
Definition InverseRealFFT2 `{FFT} (nlat nlon : nat) (lmax mmax : option nat) : Transform C R :=
  {| nlat := nlat; nlon := nlon;
     lmax := or_int lmax nlat;
     mmax := or_int mmax (nlon / 2 + 1);
     call := irfft2 nlat nlon |}.

End Transforms.

Export Transforms.

(** ** [SpectralConvS2] *)

(** The contractions of [.contractions], chosen by [operator_type]. *)
Inductive Contraction : Type :=
| contract_diagonal
| contract_blockdiag
| contract_dhconv.

Class Contractions : Type := {
  contract : Contraction -> Tensor R -> Tensor R -> Tensor R
}.

Module SpectralConvS2.

Record t : Type := mk {
  forward_transform : Transform R C;
  inverse_transform : Transform C R;
  modes_lat : nat;
  modes_lon : nat;
  scale_residual : bool;
  operator_type : string;
  weight : Tensor R;
  _contract : Contraction;
  bias : option (Tensor R)
}.

(** Arguments of [__init__]; defaults [gain=2.0],
    [operator_type="driscoll-healy"], [lr_scale_exponent=0], [bias=False]. *)
Record Args : Type := mkArgs {
  arg_forward_transform : Transform R C;
  arg_inverse_transform : Transform C R;
  in_channels : nat;
  out_channels : nat;
  gain : R;
  arg_operator_type : string;
  lr_scale_exponent : nat;
  arg_bias : bool
}.

(** [scale[0] *= c]: the entries of row 0 along the first axis. *)
Definition imul_row0 (c : R) (t : Tensor R) : Tensor R :=
  {| dtype := dtype t; shape := shape t;
     elem := fun idx => match idx with
                        | O :: _ => elem t idx * c
                        | _ => elem t idx
                        end |}.

(** Lines 283-284: [scale = math.sqrt(gain / in_channels) *
    paddle.ones([modes_lat, 2])], then [scale[0] *= math.sqrt(2)].  Row 0
    does not exist when [modes_lat] is 0: the index is then out of range. *)
Definition weight_scale (gain : R) (in_channels modes_lat : nat) : result (Tensor R) :=
  q <- float_div gain (INR in_channels) ;;
  s <- math_sqrt q ;;
  let scale := tmap (fun one => s * one) float32 (full [modes_lat; 2%nat] 1) in
  r2 <- math_sqrt 2 ;;
  if (modes_lat =? 0)%nat
  then Raise (IndexError "index 0 is out of bounds for axis 0 with size 0")
  else Ok (imul_row0 r2 scale).

(** [paddle.randn(shape, dtype=paddle.complex64)] with the entries drawn. *)
Definition randn (shape : list nat) (draw : list nat -> C) : Tensor C :=
  {| dtype := complex64; shape := shape; elem := draw |}.

(** The operator-type dispatch of lines 270-280: the weight shape and the
    contraction, or the error. *)
Definition dispatch (operator_type : string) (weight_shape : list nat)
    (modes_lat modes_lon : nat) : result (list nat * Contraction) :=
  if operator_type =? "diagonal" then
    Ok ((weight_shape ++ [modes_lat; modes_lon])%list, contract_diagonal)
  else if operator_type =? "block-diagonal" then
    Ok ((weight_shape ++ [modes_lat; modes_lon; modes_lon])%list, contract_blockdiag)
  else if operator_type =? "driscoll-healy" then
    Ok ((weight_shape ++ [modes_lat])%list, contract_dhconv)
  else Raise (NotImplementedError ("Unkonw operator type f" ++ operator_type)).

(** [draw] is what [paddle.randn] returns for the weight. *)
Definition init (a : Args) (draw : list nat -> C) : result t :=
  py_super cls_SpectralConvS2 cls_SpectralConvS2 ;;;
  let forward_transform := arg_forward_transform a in
  let inverse_transform := arg_inverse_transform a in
  let modes_lat := lmax inverse_transform in
  let modes_lon := mmax inverse_transform in
  let scale_residual :=
    negb (nlat forward_transform =? nlat inverse_transform)%nat
    || negb (nlon forward_transform =? nlon inverse_transform)%nat in
  let operator_type := arg_operator_type a in
  py_assert (lmax inverse_transform =? modes_lat)%nat "" ;;;
  py_assert (mmax inverse_transform =? modes_lon)%nat "" ;;;
  let weight_shape := [out_channels a; in_channels a] in
  d <- dispatch operator_type weight_shape modes_lat modes_lon ;;
  let (weight_shape, _contract) := d in
  (* form weight tensors *)
  scale <- weight_scale (gain a) (in_channels a) modes_lat ;;
  weight_tensor <- broadcast_op Rmult float32 scale (as_real (randn weight_shape draw)) ;;
  let bias :=
    if arg_bias a then Some (full [1; out_channels a; 1; 1]%nat 0) else None in
  Ok {| forward_transform := forward_transform;
        inverse_transform := inverse_transform;
        modes_lat := modes_lat;
        modes_lon := modes_lon;
        scale_residual := scale_residual;
        operator_type := operator_type;
        weight := weight_tensor;
        _contract := _contract;
        bias := bias |}.

(** Returns the pair [(x, residual)].  The [amp.auto_cast()] blocks only
    scope the precision of the transform calls. *)
Definition forward `{Precision} `{Contractions} (self : t) (x : Tensor R)
    : result (Tensor R * Tensor R) :=
  let dtype0 := dtype x in
  let x := astype float32 x in
  let residual := x in
  let xs := call (forward_transform self) x in
  let residual :=
    if scale_residual self then call (inverse_transform self) xs else residual in
  let xr := as_real xs in
  let xr := contract (_contract self) xr (weight self) in
  xc <- as_complex xr ;;
  let y := call (inverse_transform self) xc in
  y <- match bias self with
       | Some b => broadcast_op Rplus (dtype y) y b
       | None => Ok y
       end ;;
  let y := astype dtype0 y in
  Ok (y, residual).

End SpectralConvS2.

(** ** [FactorizedSpectralConvS2] *)

Module FactorizedSpectralConvS2.

(** What [FactorizedTensor.new(shape, rank=, factorization=,
    fixed_rank_modes=, **kwargs)] followed by [normal_(mean, std)] holds. *)
Record FactorizedTensor : Type := mkFactorizedTensor {
  ft_shape : list nat;
  ft_rank : R;
  ft_factorization : string;
  ft_fixed_rank_modes : bool;
  ft_kwargs : list (string * string);
  ft_normal : option (R * R)
}.

Definition FactorizedTensor_new (shape : list nat) (rank : R) (factorization : string)
    (fixed_rank_modes : bool) (kwargs : list (string * string)) : FactorizedTensor :=
  {| ft_shape := shape; ft_rank := rank; ft_factorization := factorization;
     ft_fixed_rank_modes := fixed_rank_modes; ft_kwargs := kwargs;
     ft_normal := None |}.

Definition normal_ (mean std : R) (w : FactorizedTensor) : FactorizedTensor :=
  {| ft_shape := ft_shape w; ft_rank := ft_rank w;
     ft_factorization := ft_factorization w;
     ft_fixed_rank_modes := ft_fixed_rank_modes w; ft_kwargs := ft_kwargs w;
     ft_normal := Some (mean, std) |}.

(** The contraction [get_contract_fun(weight, implementation=, separable=)]
    of [.factorizations] returns, as called in [forward]. *)
Class FactorizedContractions : Type := {
  factorized_contract :
    string -> bool -> Tensor C -> FactorizedTensor -> bool -> string -> Tensor C
}.

Record t : Type := mk {
  forward_transform : Transform R C;
  inverse_transform : Transform C R;
  modes_lat : nat;
  modes_lon : nat;
  scale_residual : bool;
  operator_type : string;
  rank : R;
  factorization : string;
  separable : bool;
  implementation : string;
  weight : FactorizedTensor;
  bias : option (Tensor R)
}.

(** Arguments of [__init__]; defaults [gain=2.0],
    [operator_type="driscoll-healy"], [rank=0.2], [factorization=None],
    [separable=False], [implementation="factorized"],
    [decomposition_kwargs=dict()], [bias=False]. *)
Record Args : Type := mkArgs {
  arg_forward_transform : Transform R C;
  arg_inverse_transform : Transform C R;
  in_channels : nat;
  out_channels : nat;
  gain : R;
  arg_operator_type : string;
  arg_rank : R;
  arg_factorization : option string;
  arg_separable : bool;
  arg_implementation : string;
  decomposition_kwargs : list (string * string);
  arg_bias : bool
}.

(** Lines 379-386. *)
Definition dispatch (operator_type : string) (weight_shape : list nat)
    (modes_lat modes_lon : nat) : result (list nat) :=
  if operator_type =? "diagonal" then
    Ok ((weight_shape ++ [modes_lat; modes_lon])%list)
  else if operator_type =? "block-diagonal" then
    Ok ((weight_shape ++ [modes_lat; modes_lon; modes_lon])%list)
  else if operator_type =? "driscoll-healy" then
    Ok ((weight_shape ++ [modes_lat])%list)
  else Raise (NotImplementedError ("Unkonw operator type f" ++ operator_type)).

(** The first statement is [super(SpectralConvS2, self).__init__()] with
    [self] an instance of [FactorizedSpectralConvS2]. *)
Definition init (a : Args) : result t :=
  py_super cls_SpectralConvS2 cls_FactorizedSpectralConvS2 ;;;
  let forward_transform := arg_forward_transform a in
  let inverse_transform := arg_inverse_transform a in
  let modes_lat := lmax inverse_transform in
  let modes_lon := mmax inverse_transform in
  let scale_residual :=
    negb (nlat forward_transform =? nlat inverse_transform)%nat
    || negb (nlon forward_transform =? nlon inverse_transform)%nat in
  (* make sure we are using a complex factorized tensor *)
  let factorization :=
    match arg_factorization a with None => "Dense" | Some f => f end in
  let factorization :=
    if negb (startswith (lower factorization) "complex")
    then "Complex" ++ factorization else factorization in
  let operator_type := arg_operator_type a in
  let rank := arg_rank a in
  let separable := arg_separable a in
  py_assert (lmax inverse_transform =? modes_lat)%nat "" ;;;
  py_assert (mmax inverse_transform =? modes_lon)%nat "" ;;;
  let weight_shape := [out_channels a] in
  let weight_shape :=
    if negb separable then (weight_shape ++ [in_channels a])%list else weight_shape in
  weight_shape <- dispatch operator_type weight_shape modes_lat modes_lon ;;
  (* form weight tensors *)
  let weight :=
    FactorizedTensor_new weight_shape rank factorization false (decomposition_kwargs a) in
  (* initialization of weights *)
  q <- float_div (gain a) (INR (in_channels a)) ;;
  scale <- math_sqrt q ;;
  let weight := normal_ 0 scale weight in
  let bias :=
    if arg_bias a then Some (full [1; out_channels a; 1; 1]%nat 0) else None in
  Ok {| forward_transform := forward_transform;
        inverse_transform := inverse_transform;
        modes_lat := modes_lat;
        modes_lon := modes_lon;
        scale_residual := scale_residual;
        operator_type := operator_type;
        rank := rank;
        factorization := factorization;
        separable := separable;
        implementation := arg_implementation a;
        weight := weight;
        bias := bias |}.

(** [x.type(dtype)]: [type] is an attribute of a tensor, not a method, and
    calling its value raises. *)
Definition type_call (x : Tensor R) (d : DType) : result (Tensor R) :=
  Raise (TypeError "the attribute 'type' of a Tensor is not callable").

(** Same statements as the dense [forward], with the factorized
    contraction on the complex coefficients and the closing
    [x.type(dtype)]. *)
Definition forward `{Precision} `{FactorizedContractions} (self : t) (x : Tensor R)
    : result (Tensor R * Tensor R) :=
  let dtype0 := dtype x in
  let x := astype float32 x in
  let residual := x in
  let xs := call (forward_transform self) x in
  let residual :=
    if scale_residual self then call (inverse_transform self) xs else residual in
  let xs := factorized_contract (implementation self) (separable self)
              xs (weight self) (separable self) (operator_type self) in
  let y := call (inverse_transform self) xs in
  y <- match bias self with
       | Some b => broadcast_op Rplus (dtype y) y b
       | None => Ok y
       end ;;
  y <- type_call y dtype0 ;;
  Ok (y, residual).

End FactorizedSpectralConvS2.

(* ================================================================== *)
(** * random_fields.py *)
(* ================================================================== *)

Module GaussianRandomFieldS2.

(** The inverse transform object built by [InverseRealSHT(nlat, nlon,
    grid=, norm=)], class of [ppsci.arch.paddle_harmonics.sht]. *)
Record InverseRealSHT : Type := mkInverseRealSHT {
  isht_nlat : nat;
  isht_nlon : nat;
  isht_grid : string;
  isht_norm : string;
  isht_dtype : DType
}.

(** The transform module: what the constructor of [InverseRealSHT] makes of
    its arguments [(nlat, nlon, grid, norm)] (it accepts them, or raises
    the exception given), and the entries the inverse transform computes
    from a coefficient array. *)
Class SHT : Type := {
  isht_check : nat -> nat -> string -> string -> result unit;
  isht_values : InverseRealSHT -> Tensor C -> list nat -> R
}.

(** Modelled from the spec: the constructor of [InverseRealSHT], absent from
    the sources at hand, "builds an inverse spherical-harmonic transform
    sized (nlat, 2·nlat)" for a given grid type.  Which sizes and grids it
    refuses, and how, is the transform module's [isht_check]. *)
Definition InverseRealSHT_new `{SHT} (nlat nlon : nat) (grid norm : string)
    : result InverseRealSHT :=
  isht_check nlat nlon grid norm ;;;
  Ok {| isht_nlat := nlat; isht_nlon := nlon; isht_grid := grid;
        isht_norm := norm; isht_dtype := float32 |}.

(** [isht.to(dtype=dtype)] *)
Definition isht_to (dtype : DType) (T : InverseRealSHT) : InverseRealSHT :=
  {| isht_nlat := isht_nlat T; isht_nlon := isht_nlon T; isht_grid := isht_grid T;
     isht_norm := isht_norm T; isht_dtype := dtype |}.

(** Modelled from the spec: the call of [InverseRealSHT], absent from the
    sources at hand, maps coefficient arrays whose last two axes are the
    degree and the order to "real spatial fields of shape (nlat, 2·nlat)",
    keeping the leading axes. *)
Definition isht_call `{SHT} (T : InverseRealSHT) (x : Tensor C) : result (Tensor R) :=
  match rev (shape x) with
  | _ :: _ :: lead =>
      Ok {| dtype := real_of (dtype x);
            shape := (rev lead ++ [isht_nlat T; isht_nlon T])%list;
            elem := isht_values T x |}
  | _ => Raise (ValueError "the inverse transform needs the degree and order axes")
  end.

(** [paddle.distribution.Normal(loc, scale)] with tensor arguments. *)
Record Normal : Type := mkNormal {
  loc : Tensor R;
  scale : Tensor R
}.

(** [Normal.sample(shape)]: the sample has shape [shape + batch_shape],
    where [batch_shape] is the shape of [loc + scale]; [draw] holds the
    standard normal draws. *)
Definition Normal_sample (d : Normal) (sample_shape : list nat) (draw : list nat -> R)
    : result (Tensor R) :=
  b <- broadcast_op Rplus (dtype (loc d)) (loc d) (scale d) ;;
  let output_shape := (sample_shape ++ shape b)%list in
  Ok {| dtype := dtype b;
        shape := output_shape;
        elem := fun idx =>
                  draw idx * elem (scale d) (project (shape (scale d)) idx)
                  + elem (loc d) (project (shape (loc d)) idx) |}.

Record t : Type := mk {
  nlat : nat;
  isht : InverseRealSHT;
  sqrt_eig : Tensor R;
  mean : Tensor R;
  var : Tensor R;
  gaussian_noise : Normal
}.

(** Arguments of [__init__]; defaults [alpha=2.0], [tau=3.0], [sigma=None],
    [radius=1.0], [grid="equiangular"], [dtype=paddle.float32]. *)
Record Args : Type := mkArgs {
  arg_nlat : nat;
  alpha : R;
  tau : R;
  sigma : option R;
  radius : R;
  grid : string;
  arg_dtype : DType
}.

(** The same arguments with [sigma] given. *)
Definition with_sigma (a : Args) (s : R) : Args :=
  {| arg_nlat := arg_nlat a; alpha := alpha a; tau := tau a; sigma := Some s;
     radius := radius a; grid := grid a; arg_dtype := arg_dtype a |}.

(** The message of the assertion on [alpha],
    [f"Alpha must be greater than one, got {alpha}."]. *)
Definition alpha_message `{FloatPow} (alpha : R) : string :=
  "Alpha must be greater than one, got " ++ float_str alpha ++ ".".

(** Lines 90-99: the table of square roots of the eigenvalues.  Entry
    [(j, m)] of the tiled table is [j * (j + 1)]; [tril] keeps [m <= j];
    entry [(0, 0)] is then zeroed (it does not exist when [nlat] is 0) and
    a leading axis added. *)
Definition sqrt_eig_table `{FloatPow} (nlat : nat) (sigma alpha tau radius : R)
    : result (Tensor R) :=
  let tiled : Tensor R :=
    {| dtype := int64; shape := [nlat; (nlat + 1)%nat];
       elem := fun idx => INR (hd 0%nat idx * (hd 0%nat idx + 1)) |} in
  let powered :=
    tmap (fun v => sigma * float_pow (v / float_pow radius 2 + float_pow tau 2) (- alpha / 2))
         float32 tiled in
  let lower : Tensor R :=
    {| dtype := dtype powered; shape := shape powered;
       elem := fun idx =>
                 match idx with
                 | [j; m] => if (m <=? j)%nat then elem powered idx else 0
                 | _ => elem powered idx
                 end |} in
  if (nlat =? 0)%nat
  then Raise (IndexError "index 0 is out of bounds for axis 0 with size 0")
  else
    let zeroed : Tensor R :=
      {| dtype := dtype lower; shape := shape lower;
         elem := fun idx =>
                   match idx with
                   | [O; O] => 0
                   | _ => elem lower idx
                   end |} in
    Ok (unsqueeze0 zeroed).

Definition init `{FloatPow} `{SHT} `{Precision} (a : Args) : result t :=
  (* number of latitudinal modes *)
  let nlat := arg_nlat a in
  (* default value of sigma if None is given *)
  sigma <- match sigma a with
           | None =>
               py_assert (Rltb 1 (alpha a)) (alpha_message (alpha a)) ;;;
               Ok (float_pow (tau a) (0.5 * (2 * alpha a - 2)))
           | Some s => Ok s
           end ;;
  (* inverse SHT *)
  T <- InverseRealSHT_new nlat (2 * nlat) (grid a) "backward" ;;
  let isht := isht_to (arg_dtype a) T in
  (* square root of the eigenvalues of C *)
  sqrt_eig <- sqrt_eig_table nlat sigma (alpha a) (tau a) (radius a) ;;
  (* mean and var of the standard Gaussian *)
  let mean := astype (arg_dtype a) (full [1%nat] 0) in
  let var := astype (arg_dtype a) (full [1%nat] 1) in
  (* standard normal noise sampler *)
  Ok {| nlat := nlat; isht := isht; sqrt_eig := sqrt_eig; mean := mean; var := var;
        gaussian_noise := {| loc := mean; scale := var |} |}.

(** [xi * self.sqrt_eig]: complex noise times the real table. *)
Definition Cscale (z : C) (s : R) : C := (fst z * s, snd z * s).

(** [draw] holds the standard normal draws used when [xi] is [None]. *)
Definition forward `{SHT} (self : t) (N : nat) (xi : option (Tensor C))
    (draw : list nat -> R) : result (Tensor R) :=
  (* sample Gaussian noise *)
  xi <- match xi with
        | None =>
            s <- Normal_sample (gaussian_noise self)
                   [N; nlat self; (nlat self + 1)%nat; 2%nat] draw ;;
            as_complex (squeeze s)
        | Some xi => Ok xi
        end ;;
  (* Karhunen-Loeve expansion *)
  p <- broadcast_op Cscale (dtype xi) xi (sqrt_eig self) ;;
  isht_call (isht self) p.

End GaussianRandomFieldS2.

(* ================================================================== *)
(** * Reference collaborators

    Instances of the interfaces, for running the definitions on concrete
    inputs. *)
(* ================================================================== *)

Module Reference.

(** Casting keeps the entries (every entry is taken to be representable). *)
Definition exact_precision : Precision := {| round_to := fun _ v => v |}.

Definition identity_special : SpecialFunctions :=
  {| erf := fun x => x; erfinv := fun x => x |}.

(** The real power; the text of a float is its integer part followed by
    ".0" when the float is one of 0, 1, 2, 3, and left out otherwise. *)
Definition real_power : FloatPow :=
  {| float_pow := Rpower;
     float_pow_pos := fun x y _ => eq_refl;
     float_str := fun x =>
       if Reqb x 0 then "0.0" else if Reqb x 1 then "1.0"
       else if Reqb x 2 then "2.0" else if Reqb x 3 then "3.0" else "..." |}.

(** A contraction that returns the coefficients unchanged. *)
Definition passthrough_contractions : Contractions :=
  {| contract := fun _ x _ => x |}.

(** Transforms that only retag the entries (real part in, real part out). *)
Definition retag_forward (nlat nlon lmax mmax : nat) : Transform R C :=
  {| nlat := nlat; nlon := nlon; lmax := lmax; mmax := mmax;
     call := fun x => {| dtype := complex64; shape := shape x;
                         elem := fun i => (elem x i, 0) |} |}.

Definition retag_inverse (nlat nlon lmax mmax : nat) : Transform C R :=
  {| nlat := nlat; nlon := nlon; lmax := lmax; mmax := mmax;
     call := fun x => {| dtype := float32; shape := shape x;
                         elem := fun i => fst (elem x i) |} |}.

(** [init_normal_(tensor, mean=0.0, std=1.0)]: the parameters the call on
    line 157 names, no catch-all. *)
Definition plain_initializer : MLP.Initializer :=
  {| MLP.init_normal_sig :=
       {| fn_name := "init_normal_"; params := ["tensor"; "mean"; "std"];
          var_keyword := false |};
     MLP.init_normal_default_mean := 0;
     MLP.init_normal_default_std := 1 |}.

(** [paddle.nn.Conv2D(in_channels, out_channels, kernel_size, stride=1,
    padding=0, dilation=1, groups=1, padding_mode="zeros", weight_attr=None,
    bias_attr=None, data_format="NCHW")]. *)
Definition conv2d_bias_attr : MLP.ConvModule :=
  {| MLP.Conv2D_sig :=
       {| fn_name := "__init__";
          params := ["in_channels"; "out_channels"; "kernel_size"; "stride";
                     "padding"; "dilation"; "groups"; "padding_mode";
                     "weight_attr"; "bias_attr"; "data_format"];
          var_keyword := false |} |}.

(** A constructor that also takes the keyword [bias]. *)
Definition conv2d_bias : MLP.ConvModule :=
  {| MLP.Conv2D_sig :=
       {| fn_name := "__init__";
          params := ["in_channels"; "out_channels"; "kernel_size"; "stride";
                     "padding"; "dilation"; "groups"; "padding_mode";
                     "weight_attr"; "bias_attr"; "data_format"; "bias"];
          var_keyword := false |} |}.

(** A transform module that builds on the two documented grids, not for a
    single latitude, and whose inverse transform returns zeros. *)
Definition zero_sht : GaussianRandomFieldS2.SHT :=
  {| GaussianRandomFieldS2.isht_check := fun nlat _ g _ =>
       if (nlat =? 1)%nat
       then Raise (AssertionError "")
       else if (g =? "equiangular") || (g =? "legendre-gauss")
       then Ok tt
       else Raise (ValueError "Unknown quadrature mode");
     GaussianRandomFieldS2.isht_values := fun _ _ _ => 0 |}.

(** A float64 tensor of shape [(1, 1, 2, 4)] filled with ones. *)
Definition ones64 : Tensor R :=
  {| dtype := float64; shape := [1; 1; 2; 4]%nat; elem := fun _ => 1 |}.

(** [MLP(4, drop_rate=0.5)] and [MLP(4)], with the identity for the
    activation. *)
Definition mlp_args_dropout : MLP.Args :=
  MLP.mkArgs 4 None None (fun x => x) false (/ 2) false 1.

Definition mlp_args_default : MLP.Args :=
  MLP.mkArgs 4 None None (fun x => x) false 0 false 1.

(** [MLP(0, checkpointing=True)]. *)
Definition mlp_args_checkpointing : MLP.Args :=
  MLP.mkArgs 0 None None (fun x => x) false 0 true 1.

(** Equal-resolution transforms on a [(2, 4)] grid, one channel in and out,
    with the default [gain=2.0] and a given operator type. *)
Definition conv_args (operator_type : string) : SpectralConvS2.Args :=
  SpectralConvS2.mkArgs (retag_forward 2 4 2 3) (retag_inverse 2 4 2 3)
    1 1 2 operator_type 0 false.

Definition factorized_args (operator_type : string) : FactorizedSpectralConvS2.Args :=
  FactorizedSpectralConvS2.mkArgs (retag_forward 2 4 2 3) (retag_inverse 2 4 2 3)
    1 1 2 operator_type (/ 5) None false "factorized" [] false.

(** [GaussianRandomFieldS2(2)] with the defaults. *)
Definition grf_args : GaussianRandomFieldS2.Args :=
  GaussianRandomFieldS2.mkArgs 2 2 3 None 1 "equiangular" float32.

End Reference.

(* ================================================================== *)
(** * Further code of the two files *)
(* ================================================================== *)

(** ** [RealFFT2.forward] *)

Module FFTWrappers.

(** [paddle.fft.rfft2]: its signature, and the spectrum it computes on the
    last two axes with the orthonormal scaling. *)
Class RFFT : Type := {
  rfft2_sig : Signature;
  rfft2 : Tensor R -> Tensor C
}.

(** A slice [start:stop] on an axis of extent [n], as (first index,
    length).  [:k] stops at [k], clipped to the axis. *)
Definition slice_to (k n : nat) : nat * nat := (0%nat, Nat.min k n).

(** [-f:] starts [f] before the end, clipped to the axis; [-0] is [0], so
    [-0:] is the whole axis. *)
Definition slice_from_neg (f n : nat) : nat * nat :=
  let start := if (f =? 0)%nat then 0%nat else (n - f)%nat in
  (start, (n - start)%nat).

(** [y[..., start:start+nrows, :ncols]] on the last two axes. *)
Definition slice_last2 {V} (start nrows ncols : nat) (y : Tensor V) : Tensor V :=
  {| dtype := dtype y;
     shape := match rev (shape y) with
              | _ :: _ :: lead => (rev lead ++ [nrows; ncols])%list
              | _ => shape y
              end;
     elem := fun idx =>
               match rev idx with
               | c :: r :: lead => elem y (rev (c :: (start + r)%nat :: lead))
               | _ => elem y idx
               end |}.

(** [paddle.concat((a, b), axis=-2)]: the other axes must agree. *)
Definition concat_rows {V} (a b : Tensor V) : result (Tensor V) :=
  match rev (shape a), rev (shape b) with
  | ca :: ra :: la, cb :: rb :: lb =>
      if (ca =? cb)%nat && (if list_eq_dec Nat.eq_dec la lb then true else false)
      then Ok {| dtype := dtype a;
                 shape := (rev la ++ [(ra + rb)%nat; ca])%list;
                 elem := fun idx =>
                           match rev idx with
                           | c :: r :: lead =>
                               if (r <? ra)%nat then elem a idx
                               else elem b (rev (c :: (r - ra)%nat :: lead))
                           | _ => elem a idx
                           end |}
      else Raise (ValueError "concat: shapes differ off the concatenation axis")
  | _, _ => Raise (ValueError "concat: axis -2 is out of range")
  end.

(** [RealFFT2.forward]: the call [paddle.fft.rfft2(x, axis=(-2, -1),
    norm="ortho")] binds its keywords; then the first [ceil(lmax / 2)] rows
    of the spectrum are followed by its last [floor(lmax / 2)] rows, on the
    first [mmax] columns. *)
Definition RealFFT2_forward `{RFFT} (self : Transform R C) (x : Tensor R)
    : result (Tensor C) :=
  bind_keywords rfft2_sig ["axis"; "norm"] ;;;
  let y := rfft2 x in
  match rev (shape y) with
  | w :: h :: _ =>
      let (s1, n1) := slice_to ((lmax self + 1) / 2) h in
      let (s2, n2) := slice_from_neg (lmax self / 2) h in
      let ncols := Nat.min (mmax self) w in
      concat_rows (slice_last2 s1 n1 ncols y) (slice_last2 s2 n2 ncols y)
  | _ => Raise (IndexError "too many indices for the spectrum")
  end.

End FFTWrappers.

(** ** The factorization name of [FactorizedSpectralConvS2.__init__] *)

Module FactorizationName.

(** Lines 360-363: [None] stands for ["Dense"], and a name that does not
    start with "complex", whatever the case, gets the prefix ["Complex"]. *)
Definition complex_factorization (factorization : option string) : string :=
  let factorization :=
    match factorization with None => "Dense" | Some f => f end in
  if negb (startswith (lower factorization) "complex")
  then "Complex" ++ factorization else factorization.

End FactorizationName.

(** ** [GaussianRandomFieldS2.cuda], [GaussianRandomFieldS2.to] *)

Module RandomFieldMoves.

Import GaussianRandomFieldS2.

(** [nn.Layer.to] and [nn.Layer.cuda] as the framework runs them on the
    buffers and sublayers of the object; [MoveArgs] stands for the
    [*args, **kwargs] passed through. *)
Class LayerMoves : Type := {
  MoveArgs : Type;
  layer_to : MoveArgs -> t -> t;
  layer_cuda : MoveArgs -> t -> t
}.

(** [self.gaussian_noise = paddle.distribution.Normal(self.mean, self.var)] *)
Definition rebuild_sampler (self : t) : t :=
  {| nlat := nlat self; isht := isht self; sqrt_eig := sqrt_eig self;
     mean := mean self; var := var self;
     gaussian_noise := {| loc := mean self; scale := var self |} |}.

Definition cuda `{LayerMoves} (args : MoveArgs) (self : t) : t :=
  rebuild_sampler (layer_cuda args self).

Definition to `{LayerMoves} (args : MoveArgs) (self : t) : t :=
  rebuild_sampler (layer_to args self).

(** A call of one of the two methods. *)
Inductive Move `{LayerMoves} : Type :=
| MoveTo (args : MoveArgs)
| MoveCuda (args : MoveArgs).

Definition move `{LayerMoves} (self : t) (m : Move) : t :=
  match m with
  | MoveTo args => to args self
  | MoveCuda args => cuda args self
  end.

(** The object after a sequence of calls. *)
Definition moves `{LayerMoves} (ms : list Move) (self : t) : t :=
  fold_left move ms self.

(** The sampler draws around the buffers the object holds now. *)
Definition sampler_in_sync (self : t) : Prop :=
  gaussian_noise self = {| loc := mean self; scale := var self |}.

End RandomFieldMoves.

(** ** More reference collaborators *)

Module ReferenceMore.

(** [paddle.fft.rfft2(x, s=None, axes=(-2, -1), norm="backward",
    name=None)], computing a spectrum of zeros with the shape of a real
    transform: the last axis of extent [w] becomes [w / 2 + 1]. *)
Definition zero_rfft : FFTWrappers.RFFT :=
  {| FFTWrappers.rfft2_sig :=
       {| fn_name := "rfft2"; params := ["x"; "s"; "axes"; "norm"; "name"];
          var_keyword := false |};
     FFTWrappers.rfft2 := fun x =>
       {| dtype := complex64;
          shape := match rev (shape x) with
                   | w :: r => (rev r ++ [(w / 2 + 1)%nat])%list
                   | [] => []
                   end;
          elem := fun _ => (0, 0) |} |}.

(** The wrappers' passes as retagging of the entries. *)
Definition retag_fft : FFT :=
  {| rfft2_truncated := fun _ _ x =>
       {| dtype := complex64; shape := shape x; elem := fun i => (elem x i, 0) |};
     irfft2 := fun _ _ x =>
       {| dtype := float32; shape := shape x; elem := fun i => fst (elem x i) |} |}.

(** Moving an object leaves it as it is. *)
Definition still_moves : RandomFieldMoves.LayerMoves :=
  {| RandomFieldMoves.MoveArgs := unit;
     RandomFieldMoves.layer_to := fun _ self => self;
     RandomFieldMoves.layer_cuda := fun _ self => self |}.

(** A real tensor of shape [(1, 8, 8)] filled with ones. *)
Definition ones_1_8_8 : Tensor R :=
  {| dtype := float32; shape := [1; 8; 8]%nat; elem := fun _ => 1 |}.

(** Complex noise of shape [(5, 2, 3)]. *)
Definition noise_5_2_3 : Tensor C :=
  {| dtype := complex64; shape := [5; 2; 3]%nat; elem := fun _ => (1, 0) |}.

(** [GaussianRandomFieldS2(3)] with the defaults. *)
Definition grf_args_3 : GaussianRandomFieldS2.Args :=
  GaussianRandomFieldS2.mkArgs 3 2 3 None 1 "equiangular" float32.

(** [GaussianRandomFieldS2(2, alpha=0.5, sigma=1.0)]. *)
Definition grf_args_rough : GaussianRandomFieldS2.Args :=
  GaussianRandomFieldS2.mkArgs 2 (/ 2) 3 (Some 1) 1 "equiangular" float32.

End ReferenceMore.

(* ================================================================== *)
(** * Vocabulary of the properties *)
(* ================================================================== *)

(** The operator types the constructors accept. *)
Definition known_operator_type (op : string) : Prop :=
  op = "diagonal" \/ op = "block-diagonal" \/ op = "driscoll-healy".


(** The exception of [super(cls, self)] on a [self] that is no instance of
    [cls]. *)
Definition super_refused : PyExc :=
  TypeError "super(type, obj): obj must be an instance or subtype of type".

(* ================================================================== *)
(** * Properties *)
(* ================================================================== *)

(** ** Floats and the error monad *)

Lemma Rltb_true (x y : R) : x < y -> Rltb x y = true.
Proof. intro Hlt. unfold Rltb. destruct (Rlt_dec x y) as [_ | Hn]; [reflexivity | contradiction]. Qed.

Lemma Rltb_false (x y : R) : y <= x -> Rltb x y = false.
Proof. intro Hle. unfold Rltb. destruct (Rlt_dec x y) as [Hlt | _]; [lra | reflexivity]. Qed.

Lemma Reqb_true (x y : R) : x = y -> Reqb x y = true.
Proof. intro E. unfold Reqb. destruct (Req_dec_T x y) as [_ | Hn]; [reflexivity | contradiction]. Qed.

Lemma Reqb_false (x y : R) : x <> y -> Reqb x y = false.
Proof. intro E. unfold Reqb. destruct (Req_dec_T x y) as [He | _]; [contradiction | reflexivity]. Qed.

Lemma float_div_ok (x y : R) : y <> 0 -> float_div x y = Ok (x / y).
Proof. intro Hy. unfold float_div. now rewrite (Reqb_false Hy). Qed.

Lemma float_div_zero (x : R) :
  float_div x 0 = Raise (ZeroDivisionError "float division by zero").
Proof. unfold float_div. now rewrite (Reqb_true (eq_refl 0)). Qed.

Lemma float_div_inv (x y q : R) : float_div x y = Ok q -> y <> 0 /\ q = x / y.
Proof.
  unfold float_div, Reqb. destruct (Req_dec_T y 0) as [E | N]; intro Hq.
  - discriminate Hq.
  - injection Hq as <-. now split.
Qed.

Lemma math_sqrt_ok (x : R) : 0 <= x -> math_sqrt x = Ok (sqrt x).
Proof. intro Hx. unfold math_sqrt. now rewrite (Rltb_false Hx). Qed.

Lemma math_sqrt_inv (x s : R) : math_sqrt x = Ok s -> 0 <= x /\ s = sqrt x.
Proof.
  unfold math_sqrt, Rltb. destruct (Rlt_dec x 0) as [L | N]; intro Hs.
  - discriminate Hs.
  - injection Hs as <-. split; [lra | reflexivity].
Qed.

Lemma bind_Ok_inv {A B} (c : result A) (k : A -> result B) (b : B) :
  Py.bind c k = Ok b -> exists a, c = Ok a /\ k a = Ok b.
Proof.
  destruct c as [e | a]; simpl; intro Hb.
  - discriminate Hb.
  - now exists a.
Qed.

Lemma raises_not_Ok {A} (c : result A) : raises c <-> forall a, c <> Ok a.
Proof.
  destruct c as [e | a]; simpl; split.
  - intros _ a Ha. discriminate Ha.
  - trivial.
  - intros [].
  - intro Hn. exact (Hn a eq_refl).
Qed.

(** ** Stochastic depth *)

(** C6. [drop_path] returns its input tensor itself, with no rescaling and
    no masking, whenever [drop_prob] is 0 or [training] is false. *)
Theorem drop_path_identity (x : Tensor R) (drop_prob : R) (training : bool)
    (rnd : list nat -> R) :
  drop_prob = 0 \/ training = false ->
  DropPath.drop_path x drop_prob training rnd = Ok x.
Proof.
  intros [Hp | Ht]; unfold DropPath.drop_path.
  - now rewrite (Reqb_true Hp).
  - rewrite Ht. simpl. now rewrite orb_true_r.
Qed.

Lemma drop_path_identity_witness :
  (0 = 0 \/ true = false) /\
  DropPath.drop_path Reference.ones64 0 true (fun _ => 0) = Ok Reference.ones64.
Proof.
  split.
  - left. reflexivity.
  - apply (@drop_path_identity Reference.ones64 0 true (fun _ => 0)).
    left. reflexivity.
Defined.

(** The layer in evaluation mode, or built with probability 0, is the
    identity too. *)
Lemma DropPath_forward_identity (self : DropPath.t) (x : Tensor R) (rnd : list nat -> R) :
  DropPath.drop_prob self = Some 0 \/ DropPath.training self = false ->
  DropPath.forward self x rnd = Ok x.
Proof.
  unfold DropPath.forward, DropPath.drop_path. intros [Hp | Ht].
  - rewrite Hp. now rewrite (Reqb_true (eq_refl 0)).
  - rewrite Ht. destruct (DropPath.drop_prob self) as [p |]; simpl.
    + now rewrite orb_true_r.
    + reflexivity.
Qed.

(** ** Truncated normal *)

Section TruncNormalFill.

Context `{SF : SpecialFunctions}.

(** The division by a zero [std] ends the call before the buffer is
    touched. *)
Lemma trunc_normal_zero_std (tensor : Tensor R) (mean a b : R) (rnd : list nat -> R) :
  outcome (trunc_normal_ tensor mean 0 a b rnd)
    = Raise (ZeroDivisionError "float division by zero") /\
  buffer (trunc_normal_ tensor mean 0 a b rnd) = tensor.
Proof.
  unfold trunc_normal_, _no_grad_trunc_normal_, and_then, pure.
  rewrite float_div_zero. split; reflexivity.
Qed.

(** Bounds that are not in order end it at [uniform_], the buffer
    untouched. *)
Lemma trunc_normal_bounds_refused (tensor : Tensor R) (mean std a b : R)
    (rnd : list nat -> R) :
  std <> 0 ->
  2 * norm_cdf ((b - mean) / std) - 1 <= 2 * norm_cdf ((a - mean) / std) - 1 ->
  outcome (trunc_normal_ tensor mean std a b rnd)
    = Raise (ValueError "uniform_ expects min to be less than max") /\
  buffer (trunc_normal_ tensor mean std a b rnd) = tensor.
Proof.
  intros Hne Hle.
  unfold trunc_normal_, _no_grad_trunc_normal_, and_then, pure, uniform_.
  rewrite !(float_div_ok _ Hne). unfold Ok. cbv beta iota zeta.
  rewrite (Rltb_false Hle). split; reflexivity.
Qed.

(** With bounds in order the buffer is filled by [uniform_] and rewritten
    by [erfinv_]; the multiplication that follows raises. *)
Lemma trunc_normal_stops_at_mul (tensor : Tensor R) (mean std a b : R)
    (rnd : list nat -> R) :
  std <> 0 ->
  2 * norm_cdf ((a - mean) / std) - 1 < 2 * norm_cdf ((b - mean) / std) - 1 ->
  outcome (trunc_normal_ tensor mean std a b rnd)
    = Raise (FrameworkError "Tensor.mul_ with a float") /\
  buffer (trunc_normal_ tensor mean std a b rnd)
    = inplace erfinv
        {| dtype := dtype tensor; shape := shape tensor;
           elem := fun i =>
                     2 * norm_cdf ((a - mean) / std) - 1
                     + (2 * norm_cdf ((b - mean) / std) - 1
                        - (2 * norm_cdf ((a - mean) / std) - 1)) * rnd i |}.
Proof.
  intros Hne Hlt.
  unfold trunc_normal_, _no_grad_trunc_normal_, and_then, pure, uniform_, erfinv_, mul_.
  rewrite !(float_div_ok _ Hne). unfold Ok. cbv beta iota zeta.
  rewrite (Rltb_true Hlt). split; reflexivity.
Qed.

(** Whatever the arguments, one of the three exceptions above ends the
    call. *)
Lemma trunc_normal_always_raises (tensor : Tensor R) (mean std a b : R)
    (rnd : list nat -> R) :
  exists e, outcome (trunc_normal_ tensor mean std a b rnd) = Raise e.
Proof.
  destruct (Req_dec_T std 0) as [-> | Hne].
  - eexists. exact (proj1 (trunc_normal_zero_std tensor mean a b rnd)).
  - destruct (Rlt_dec (2 * norm_cdf ((a - mean) / std) - 1)
                      (2 * norm_cdf ((b - mean) / std) - 1)) as [Hlt | Hge].
    + eexists. exact (proj1 (@trunc_normal_stops_at_mul tensor mean std a b rnd Hne Hlt)).
    + eexists.
      exact (proj1 (@trunc_normal_bounds_refused tensor mean std a b rnd Hne
                      ltac:(lra))).
Qed.

(** C8. The initializer never returns, so it never hands back a buffer
    clamped to [[a, b]]: whenever the bounds handed to [uniform_] are in
    order, the call raises at the multiplication of line 77, after
    [uniform_] and [erfinv_] have written, and the buffer is left with the
    values of [erfinv_], which the clamp of line 81 never sees.  With an
    increasing error function the bounds are in order for every [std > 0]
    and [a < b]. *)
Theorem trunc_normal_raises_before_clamp (tensor : Tensor R) (mean std a b : R)
    (rnd : list nat -> R) :
  raises (outcome (trunc_normal_ tensor mean std a b rnd)) /\
  (std <> 0 ->
   2 * norm_cdf ((a - mean) / std) - 1 < 2 * norm_cdf ((b - mean) / std) - 1 ->
   outcome (trunc_normal_ tensor mean std a b rnd)
     = Raise (FrameworkError "Tensor.mul_ with a float") /\
   shape (buffer (trunc_normal_ tensor mean std a b rnd)) = shape tensor /\
   forall idx,
     elem (buffer (trunc_normal_ tensor mean std a b rnd)) idx
       = erfinv (2 * norm_cdf ((a - mean) / std) - 1
                 + (2 * norm_cdf ((b - mean) / std) - 1
                    - (2 * norm_cdf ((a - mean) / std) - 1)) * rnd idx)) /\
  ((forall x y, x < y -> erf x < erf y) -> 0 < std -> a < b ->
   2 * norm_cdf ((a - mean) / std) - 1 < 2 * norm_cdf ((b - mean) / std) - 1).
Proof.
  split; [| split].
  - destruct (trunc_normal_always_raises tensor mean std a b rnd) as [e He].
    rewrite He. exact I.
  - intros Hne Hlt.
    destruct (@trunc_normal_stops_at_mul tensor mean std a b rnd Hne Hlt) as [Ho Hb].
    split; [exact Ho |]. rewrite Hb. split; [reflexivity |]. intro idx. reflexivity.
  - intros Herf Hstd Hab.
    pose proof (sqrt_lt_R0 2 ltac:(lra)) as Hs2.
    assert (Hi : 0 < / std) by now apply Rinv_0_lt_compat.
    assert (Hq : 0 < / sqrt 2) by now apply Rinv_0_lt_compat.
    assert (Hz1 : (a - mean) / std < (b - mean) / std) by (unfold Rdiv; nra).
    assert (Hz : (a - mean) / std / sqrt 2 < (b - mean) / std / sqrt 2)
      by (unfold Rdiv in *; nra).
    pose proof (Herf _ _ Hz) as He. unfold norm_cdf. lra.
Qed.

End TruncNormalFill.

(** [trunc_normal_(tensor, mean=10.0, std=1.0, a=9.0, b=11.0)] on a buffer
    of shape [(2, 3)], with the error function taken as the identity and
    every unit draw 1/2: the call raises and entry [(0, 0)] of the buffer is
    left at 0, outside [[9, 11]]. *)
Lemma trunc_normal_raises_before_clamp_witness :
  raises (outcome (@trunc_normal_ Reference.identity_special
                     (full [2; 3]%nat 0) 10 1 9 11 (fun _ => / 2))) /\
  elem (buffer (@trunc_normal_ Reference.identity_special
                  (full [2; 3]%nat 0) 10 1 9 11 (fun _ => / 2))) [0; 0]%nat = 0 /\
  ~ (9 <= elem (buffer (@trunc_normal_ Reference.identity_special
                          (full [2; 3]%nat 0) 10 1 9 11 (fun _ => / 2))) [0; 0]%nat
       <= 11).
Proof.
  destruct (@trunc_normal_raises_before_clamp Reference.identity_special
              (full [2; 3]%nat 0) 10 1 9 11 (fun _ => / 2)) as (Hr & Hfill & Horder).
  assert (Hlt : 2 * @norm_cdf Reference.identity_special ((9 - 10) / 1) - 1
                < 2 * @norm_cdf Reference.identity_special ((11 - 10) / 1) - 1)
    by (apply Horder; [intros x y Hxy; exact Hxy | lra | lra]).
  destruct (Hfill ltac:(lra) Hlt) as (_ & _ & Hentry).
  assert (H0 : elem (buffer (@trunc_normal_ Reference.identity_special
                               (full [2; 3]%nat 0) 10 1 9 11 (fun _ => / 2)))
                 [0; 0]%nat = 0).
  { rewrite Hentry. unfold norm_cdf. cbn [erf erfinv Reference.identity_special].
    unfold Rdiv. lra. }
  split; [exact Hr |]. split; [exact H0 |]. rewrite H0. lra.
Defined.

(** ** Feed-forward block *)

Ltac bind_inv H :=
  let v := fresh "v" in
  let Hv := fresh "Hv" in
  apply bind_Ok_inv in H; destruct H as (v & Hv & H); cbv beta in H.

Lemma or_int_nonzero (a : option nat) (b : nat) : b <> 0%nat -> or_int a b <> 0%nat.
Proof.
  intro Hb. destruct a as [[| n] |]; simpl; try assumption. discriminate.
Qed.

Lemma INR_pos_of_nonzero (n : nat) : n <> 0%nat -> 0 < INR n.
Proof. intro Hn. apply lt_0_INR. lia. Qed.

Section FeedForward.

Context `{Init_ : MLP.Initializer} `{Conv_ : MLP.ConvModule}.

(** A keyword the signature does not declare is refused when there is no
    catch-all. *)
Lemma init_normal__unexpected (kwargs : list (string * R)) (k : string) :
  unexpected_keyword MLP.init_normal_sig (map fst kwargs) = Some k ->
  var_keyword MLP.init_normal_sig = false ->
  MLP.init_normal_ kwargs =
    Raise (TypeError (fn_name MLP.init_normal_sig
                      ++ "() got an unexpected keyword argument '" ++ k ++ "'")).
Proof.
  intros Hk Hv. unfold MLP.init_normal_, bind_keywords. now rewrite Hk, Hv.
Qed.

Lemma mena_unexpected (scale : R) :
  existsb (String.eqb "mena") (params MLP.init_normal_sig) = false ->
  unexpected_keyword MLP.init_normal_sig (map fst [("mena", 0); ("std", scale)])
    = Some "mena".
Proof.
  intro Hm. unfold unexpected_keyword. cbn [map fst find]. now rewrite Hm.
Qed.

Lemma mean_std_expected (scale : R) :
  existsb (String.eqb "mean") (params MLP.init_normal_sig) = true ->
  existsb (String.eqb "std") (params MLP.init_normal_sig) = true ->
  unexpected_keyword MLP.init_normal_sig (map fst [("mean", 0); ("std", scale)])
    = None.
Proof.
  intros Hm Hs. unfold unexpected_keyword. cbn [map fst find]. now rewrite Hm, Hs.
Qed.

Lemma init_normal__bound (mean std : R) :
  unexpected_keyword MLP.init_normal_sig (map fst [("mean", mean); ("std", std)])
    = None ->
  MLP.init_normal_ [("mean", mean); ("std", std)] = Ok (MLP.NormalInit mean std).
Proof.
  intro Hk. unfold MLP.init_normal_, bind_keywords. now rewrite Hk.
Qed.

(** A [Conv2D] whose constructor takes the keyword [bias] is built. *)
Lemma Conv2D_new_bound (i o k : nat) (b : bool) :
  existsb (String.eqb "bias") (params MLP.Conv2D_sig) = true ->
  MLP.Conv2D_new i o k b =
    Ok {| MLP.in_channels := i; MLP.out_channels := o; MLP.kernel_size := k;
          MLP.weight := MLP.DefaultInit;
          MLP.bias := if b then Some MLP.DefaultInit else None |}.
Proof.
  intro Hb. unfold MLP.Conv2D_new, bind_keywords, unexpected_keyword.
  cbn [find]. now rewrite Hb.
Qed.

(** One whose constructor takes neither [bias] nor a catch-all is not. *)
Lemma Conv2D_new_refused (i o k : nat) (b : bool) :
  var_keyword MLP.Conv2D_sig = false ->
  existsb (String.eqb "bias") (params MLP.Conv2D_sig) = false ->
  MLP.Conv2D_new i o k b =
    Raise (TypeError (fn_name MLP.Conv2D_sig
                      ++ "() got an unexpected keyword argument 'bias'")).
Proof.
  intros Hv Hb. unfold MLP.Conv2D_new, bind_keywords, unexpected_keyword.
  cbn [find]. now rewrite Hb, Hv.
Qed.

(** The statements of [MLP.__init__] in order: each one either raises or
    hands over to the next, and the call of line 168 raises. *)
Lemma MLP_init_stops :
  var_keyword MLP.init_normal_sig = false ->
  existsb (String.eqb "mena") (params MLP.init_normal_sig) = false ->
  forall a : MLP.Args, exists e, MLP.init a = Raise e.
Proof.
  intros Hv Hm a. unfold MLP.init. simpl.
  destruct (MLP.arg_checkpointing a); simpl; [eexists; reflexivity |].
  destruct (MLP.Conv2D_new _ _ _ _) as [e | fc1]; simpl; [eexists; reflexivity |].
  destruct (float_div 2 _) as [e | q]; simpl; [eexists; reflexivity |].
  destruct (math_sqrt q) as [e | s]; simpl; [eexists; reflexivity |].
  destruct (MLP.init_normal_ [("mean", 0); ("std", s)]) as [e | w]; simpl;
    [eexists; reflexivity |].
  destruct (MLP.Conv2D_new _ _ _ _) as [e | fc2]; simpl; [eexists; reflexivity |].
  destruct (float_div (MLP.gain a) _) as [e | q']; simpl; [eexists; reflexivity |].
  destruct (math_sqrt q') as [e | s']; simpl; [eexists; reflexivity |].
  rewrite (init_normal__unexpected _ (mena_unexpected s' Hm) Hv). simpl.
  eexists. reflexivity.
Qed.

(** C4. When [init_normal_] declares neither a parameter [mena] nor a
    catch-all, the call on line 168 cannot bind its keyword: no argument set
    constructs an [MLP]. *)
Theorem MLP_init_mena_raises :
  var_keyword MLP.init_normal_sig = false ->
  existsb (String.eqb "mena") (params MLP.init_normal_sig) = false ->
  forall a : MLP.Args, raises (MLP.init a).
Proof.
  intros Hv Hm a. destruct (MLP_init_stops Hv Hm a) as [e He].
  rewrite He. exact I.
Qed.

(** For arguments that pass every earlier statement the exception is the
    [TypeError] of the keyword [mena]. *)
Lemma MLP_init_mena_TypeError (a : MLP.Args) :
  var_keyword MLP.init_normal_sig = false ->
  existsb (String.eqb "mena") (params MLP.init_normal_sig) = false ->
  existsb (String.eqb "mean") (params MLP.init_normal_sig) = true ->
  existsb (String.eqb "std") (params MLP.init_normal_sig) = true ->
  existsb (String.eqb "bias") (params MLP.Conv2D_sig) = true ->
  MLP.arg_checkpointing a = false ->
  MLP.in_features a <> 0%nat ->
  0 <= MLP.gain a ->
  MLP.init a =
    Raise (TypeError (fn_name MLP.init_normal_sig
                      ++ "() got an unexpected keyword argument 'mena'")).
Proof.
  intros Hv Hm Hmean Hstd Hbias Hc Hin Hg. unfold MLP.init.
  cbn [Py.bind py_super isinstance existsb mro mro_fuel base PyClass_eqb orb Ok].
  rewrite Hc. cbn [negb py_assert Py.bind Ok].
  rewrite !(Conv2D_new_bound _ _ _ _ Hbias). cbn [Py.bind Ok].
  pose proof (INR_pos_of_nonzero Hin) as Hpos.
  rewrite float_div_ok by lra. cbn [Py.bind Ok].
  rewrite math_sqrt_ok by (apply Rlt_le, Rdiv_lt_0_compat; lra). cbn [Py.bind Ok].
  rewrite init_normal__bound by (apply mean_std_expected; assumption). cbn [Py.bind Ok].
  pose proof (INR_pos_of_nonzero (or_int_nonzero (MLP.hidden_features a) Hin)) as Hh.
  rewrite float_div_ok by lra. cbn [Py.bind Ok].
  rewrite math_sqrt_ok by (apply Rmult_le_pos; [lra | apply Rlt_le, Rinv_0_lt_compat; lra]).
  cbn [Py.bind Ok].
  now rewrite (init_normal__unexpected _ (mena_unexpected _ Hm) Hv).
Qed.

(** Where [nn.Conv2D] takes no keyword [bias], the first layer of line 154
    is already refused. *)
Lemma MLP_init_bias_TypeError (a : MLP.Args) :
  var_keyword MLP.Conv2D_sig = false ->
  existsb (String.eqb "bias") (params MLP.Conv2D_sig) = false ->
  MLP.arg_checkpointing a = false ->
  MLP.init a =
    Raise (TypeError (fn_name MLP.Conv2D_sig
                      ++ "() got an unexpected keyword argument 'bias'")).
Proof.
  intros Hv Hb Hc. unfold MLP.init.
  cbn [Py.bind py_super isinstance existsb mro mro_fuel base PyClass_eqb orb Ok].
  rewrite Hc. cbn [negb py_assert Py.bind Ok].
  now rewrite (Conv2D_new_refused _ _ _ _ Hv Hb).
Qed.



End FeedForward.

Lemma MLP_init_mena_raises_witness :
  var_keyword (@MLP.init_normal_sig Reference.plain_initializer) = false /\
  existsb (String.eqb "mena")
    (params (@MLP.init_normal_sig Reference.plain_initializer)) = false /\
  raises (@MLP.init Reference.plain_initializer Reference.conv2d_bias
            Reference.mlp_args_default).
Proof.
  split; [reflexivity |]. split; [reflexivity |].
  apply (@MLP_init_mena_raises Reference.plain_initializer Reference.conv2d_bias);
    reflexivity.
Defined.

(** [MLP(4, drop_rate=0.5)] where [nn.Conv2D] names its bias [bias_attr]:
    the constructor stops at line 154. *)
Lemma MLP_with_dropout_stops_at_line_154 :
  @MLP.init Reference.plain_initializer Reference.conv2d_bias_attr
    Reference.mlp_args_dropout
  = Raise (TypeError "__init__() got an unexpected keyword argument 'bias'").
Proof.
  apply (@MLP_init_bias_TypeError Reference.plain_initializer
           Reference.conv2d_bias_attr Reference.mlp_args_dropout); reflexivity.
Qed.

(** The same call where [nn.Conv2D] takes [bias]: it stops at line 168. *)
Lemma MLP_with_dropout_stops_at_line_168 :
  @MLP.init Reference.plain_initializer Reference.conv2d_bias
    Reference.mlp_args_dropout
  = Raise (TypeError "init_normal_() got an unexpected keyword argument 'mena'").
Proof.
  apply (@MLP_init_mena_TypeError Reference.plain_initializer
           Reference.conv2d_bias Reference.mlp_args_dropout);
    try reflexivity; simpl; [discriminate | lra].
Qed.


(** ** Broadcasting *)

Lemma broadcast_rev_prefix (r q : list nat) :
  broadcast_rev r (r ++ q)%list = Some (r ++ q)%list.
Proof.
  induction r as [| d r IH]; simpl.
  - reflexivity.
  - rewrite IH. now rewrite Nat.eqb_refl.
Qed.

(** A tensor broadcasts against any tensor whose trailing axes are its
    own: the result has the larger shape. *)
Lemma broadcast_shapes_suffix (s p : list nat) :
  broadcast_shapes s (p ++ s)%list = Some (p ++ s)%list.
Proof.
  unfold broadcast_shapes. rewrite rev_app_distr, broadcast_rev_prefix. simpl.
  now rewrite <- rev_app_distr, rev_involutive.
Qed.

(** ** Spectral convolution: construction *)

Lemma SpectralConvS2_dispatch_known (op : string) (ws : list nat) (lat lon : nat) :
  known_operator_type op -> returns (SpectralConvS2.dispatch op ws lat lon).
Proof. intros [-> | [-> | ->]]; exact I. Qed.

Lemma SpectralConvS2_dispatch_unknown (op : string) (ws : list nat) (lat lon : nat) :
  ~ known_operator_type op ->
  SpectralConvS2.dispatch op ws lat lon =
    Raise (NotImplementedError ("Unkonw operator type f" ++ op)).
Proof.
  intro Hn. unfold SpectralConvS2.dispatch.
  destruct (String.eqb_spec op "diagonal") as [E | _].
  { exfalso. apply Hn. now left. }
  destruct (String.eqb_spec op "block-diagonal") as [E | _].
  { exfalso. apply Hn. right. now left. }
  destruct (String.eqb_spec op "driscoll-healy") as [E | _].
  { exfalso. apply Hn. right. now right. }
  reflexivity.
Qed.

(** The dense operator: an operator type outside the three known ones is
    reported by [NotImplementedError] at construction, and a known one never
    is. *)
Lemma SpectralConvS2_operator_type_check (a : SpectralConvS2.Args) (draw : list nat -> C) :
  (~ known_operator_type (SpectralConvS2.arg_operator_type a) ->
   SpectralConvS2.init a draw =
     Raise (NotImplementedError
              ("Unkonw operator type f" ++ SpectralConvS2.arg_operator_type a))) /\
  (known_operator_type (SpectralConvS2.arg_operator_type a) ->
   forall msg, SpectralConvS2.init a draw <> Raise (NotImplementedError msg)).
Proof.
  split; intro Hk; unfold SpectralConvS2.init; simpl; rewrite !Nat.eqb_refl; simpl.
  - now rewrite SpectralConvS2_dispatch_unknown.
  - intro msg.
    pose proof (SpectralConvS2_dispatch_known
                  [SpectralConvS2.out_channels a; SpectralConvS2.in_channels a]
                  (lmax (SpectralConvS2.arg_inverse_transform a))
                  (mmax (SpectralConvS2.arg_inverse_transform a)) Hk) as Hd.
    destruct (SpectralConvS2.dispatch _ _ _ _) as [e | [ws c]]; [destruct Hd |].
    simpl. unfold SpectralConvS2.weight_scale, float_div, math_sqrt.
    destruct (Reqb _ 0); simpl; [discriminate |].
    destruct (Rltb _ 0); simpl; [discriminate |].
    destruct (Rltb 2 0); simpl; [discriminate |].
    destruct (_ =? 0)%nat; simpl; [discriminate |].
    unfold broadcast_op. destruct (broadcast_shapes _ _); simpl; discriminate.
Qed.

(** What a constructed layer holds. *)
Lemma SpectralConvS2_init_fields (a : SpectralConvS2.Args) (draw : list nat -> C)
    (self : SpectralConvS2.t) :
  SpectralConvS2.init a draw = Ok self ->
  SpectralConvS2.forward_transform self = SpectralConvS2.arg_forward_transform a /\
  SpectralConvS2.inverse_transform self = SpectralConvS2.arg_inverse_transform a /\
  SpectralConvS2.modes_lat self = lmax (SpectralConvS2.arg_inverse_transform a) /\
  SpectralConvS2.operator_type self = SpectralConvS2.arg_operator_type a /\
  SpectralConvS2.scale_residual self =
    negb (nlat (SpectralConvS2.arg_forward_transform a)
          =? nlat (SpectralConvS2.arg_inverse_transform a))%nat
    || negb (nlon (SpectralConvS2.arg_forward_transform a)
             =? nlon (SpectralConvS2.arg_inverse_transform a))%nat /\
  exists weight_shape contraction scale,
    SpectralConvS2.dispatch (SpectralConvS2.arg_operator_type a)
      [SpectralConvS2.out_channels a; SpectralConvS2.in_channels a]
      (lmax (SpectralConvS2.arg_inverse_transform a))
      (mmax (SpectralConvS2.arg_inverse_transform a)) = Ok (weight_shape, contraction) /\
    SpectralConvS2.weight_scale (SpectralConvS2.gain a) (SpectralConvS2.in_channels a)
      (lmax (SpectralConvS2.arg_inverse_transform a)) = Ok scale /\
    broadcast_op Rmult float32 scale
      (as_real (SpectralConvS2.randn weight_shape draw)) = Ok (SpectralConvS2.weight self).
Proof.
  intro Hinit. unfold SpectralConvS2.init in Hinit.
  bind_inv Hinit. bind_inv Hinit. bind_inv Hinit. bind_inv Hinit.
  destruct v2 as [ws c]. bind_inv Hinit. bind_inv Hinit.
  injection Hinit as <-. simpl.
  repeat (split; [reflexivity |]).
  exists ws, c. eexists. repeat split; eassumption.
Qed.

Lemma weight_scale_inv (gain : R) (in_channels modes_lat : nat) (scale : Tensor R) :
  SpectralConvS2.weight_scale gain in_channels modes_lat = Ok scale ->
  in_channels <> 0%nat /\ 0 <= gain / INR in_channels /\ modes_lat <> 0%nat /\
  scale = SpectralConvS2.imul_row0 (sqrt 2)
            (tmap (fun one => sqrt (gain / INR in_channels) * one) float32
               (full [modes_lat; 2%nat] 1)).
Proof.
  unfold SpectralConvS2.weight_scale. intro Hs.
  bind_inv Hs. bind_inv Hs. bind_inv Hs.
  apply float_div_inv in Hv as [Hin ->].
  apply math_sqrt_inv in Hv0 as [Hq ->].
  apply math_sqrt_inv in Hv1 as [_ ->].
  destruct (Nat.eqb_spec modes_lat 0) as [E | N]; [discriminate Hs |].
  injection Hs as <-.
  repeat split; try assumption.
  intro E. apply Hin. rewrite E. reflexivity.
Qed.

Lemma weight_scale_ok (gain : R) (in_channels modes_lat : nat) :
  in_channels <> 0%nat -> 0 <= gain -> modes_lat <> 0%nat ->
  SpectralConvS2.weight_scale gain in_channels modes_lat =
    Ok (SpectralConvS2.imul_row0 (sqrt 2)
          (tmap (fun one => sqrt (gain / INR in_channels) * one) float32
             (full [modes_lat; 2%nat] 1))).
Proof.
  intros Hin Hg Hl. unfold SpectralConvS2.weight_scale.
  pose proof (INR_pos_of_nonzero Hin) as Hpos.
  rewrite float_div_ok by lra. simpl.
  rewrite math_sqrt_ok by (apply Rmult_le_pos; [lra | apply Rlt_le, Rinv_0_lt_compat; lra]).
  simpl. rewrite math_sqrt_ok by lra. simpl.
  apply Nat.eqb_neq in Hl. now rewrite Hl.
Qed.

(** ** Factorized spectral convolution: construction *)

(** [FactorizedSpectralConvS2] derives from [nn.Layer] only. *)
Lemma Factorized_not_a_SpectralConvS2 :
  isinstance cls_FactorizedSpectralConvS2 cls_SpectralConvS2 = false.
Proof. reflexivity. Qed.

(** C2. The constructor of [FactorizedSpectralConvS2] opens with
    [super(SpectralConvS2, self)], and [self] is no instance of
    [SpectralConvS2]: for every argument set, valid or not, construction
    raises that [TypeError] and no layer exists to run a forward pass on. *)
Theorem Factorized_init_always_raises (a : FactorizedSpectralConvS2.Args) :
  FactorizedSpectralConvS2.init a = Raise super_refused.
Proof. reflexivity. Qed.

(** C5. In [FactorizedSpectralConvS2] the operator-type check is never
    reached: whatever the operator type, known or not, construction raises,
    and the exception is never the [NotImplementedError] of the check. *)
Theorem Factorized_operator_type_check_unreachable (a : FactorizedSpectralConvS2.Args) :
  raises (FactorizedSpectralConvS2.init a) /\
  (forall msg, FactorizedSpectralConvS2.init a <> Raise (NotImplementedError msg)) /\
  FactorizedSpectralConvS2.init (Reference.factorized_args "no-such-operator")
    = Raise super_refused /\
  FactorizedSpectralConvS2.init (Reference.factorized_args "diagonal")
    = Raise super_refused.
Proof.
  change (FactorizedSpectralConvS2.init a) with (@Raise FactorizedSpectralConvS2.t super_refused).
  repeat split.
  intros msg Hm. discriminate Hm.
Qed.

(** The check itself, once reached, is the one of the dense operator. *)
Lemma Factorized_dispatch_unknown (op : string) (ws : list nat) (lat lon : nat) :
  ~ known_operator_type op ->
  FactorizedSpectralConvS2.dispatch op ws lat lon =
    Raise (NotImplementedError ("Unkonw operator type f" ++ op)).
Proof.
  intro Hn. unfold FactorizedSpectralConvS2.dispatch.
  destruct (String.eqb_spec op "diagonal") as [E | _].
  { exfalso. apply Hn. now left. }
  destruct (String.eqb_spec op "block-diagonal") as [E | _].
  { exfalso. apply Hn. right. now left. }
  destruct (String.eqb_spec op "driscoll-healy") as [E | _].
  { exfalso. apply Hn. right. now right. }
  reflexivity.
Qed.

(** ** Spectral convolution: the residual *)

Section Residual.

Context `{Prec : Precision} `{Contr : Contractions}.

Lemma same_resolution_flag (f : Transform R C) (i : Transform C R) :
  negb (nlat f =? nlat i)%nat || negb (nlon f =? nlon i)%nat = false
  <-> nlat f = nlat i /\ nlon f = nlon i.
Proof.
  destruct (Nat.eqb_spec (nlat f) (nlat i)) as [E1 | N1];
    destruct (Nat.eqb_spec (nlon f) (nlon i)) as [E2 | N2]; simpl; split;
    try tauto; try discriminate; intros [? ?]; contradiction.
Qed.

(** The residual a forward pass returns is fixed before the contraction. *)
Lemma SpectralConvS2_forward_residual (self : SpectralConvS2.t) (x out res : Tensor R) :
  SpectralConvS2.forward self x = Ok (out, res) ->
  res = if SpectralConvS2.scale_residual self
        then call (SpectralConvS2.inverse_transform self)
               (call (SpectralConvS2.forward_transform self) (astype float32 x))
        else astype float32 x.
Proof.
  unfold SpectralConvS2.forward. intro Hf.
  bind_inv Hf. bind_inv Hf. injection Hf as _ <-. reflexivity.
Qed.

(** A float32 tensor whose entries are float32 values is its own cast. *)
Lemma astype_float32_fixed (x : Tensor R) :
  dtype x = float32 ->
  (forall i, round_to float32 (elem x i) = elem x i) ->
  astype float32 x = x.
Proof.
  intros Hd He. destruct x as [d s e]. simpl in *. subst d.
  unfold astype, tmap. simpl. f_equal.
  apply FunctionalExtensionality.functional_extensionality. exact He.
Qed.

(** C1, as the code has it.  The input is first cast to float32.  When the
    two transforms have the same [(nlat, nlon)] the residual is that cast
    input (the input itself when it already is float32); when they differ
    it is the inverse transform of the forward transform of the cast
    input. *)
Theorem SpectralConvS2_residual (a : SpectralConvS2.Args) (draw : list nat -> C)
    (self : SpectralConvS2.t) (x out res : Tensor R) :
  SpectralConvS2.init a draw = Ok self ->
  SpectralConvS2.forward self x = Ok (out, res) ->
  let ft := SpectralConvS2.arg_forward_transform a in
  let it := SpectralConvS2.arg_inverse_transform a in
  (nlat ft = nlat it /\ nlon ft = nlon it ->
     SpectralConvS2.scale_residual self = false /\
     res = astype float32 x /\
     (dtype x = float32 ->
      (forall i, round_to float32 (elem x i) = elem x i) -> res = x)) /\
  (~ (nlat ft = nlat it /\ nlon ft = nlon it) ->
     SpectralConvS2.scale_residual self = true /\
     res = call it (call ft (astype float32 x))).
Proof.
  intros Hinit Hfwd ft it.
  destruct (SpectralConvS2_init_fields _ _ Hinit) as (Hft & Hit & _ & _ & Hflag & _).
  apply SpectralConvS2_forward_residual in Hfwd.
  rewrite Hft, Hit in Hfwd. fold ft it in Hfwd, Hflag.
  split; intro Hres.
  - apply same_resolution_flag in Hres. rewrite Hres in Hflag.
    rewrite Hflag in Hfwd. split; [exact Hflag |]. split; [exact Hfwd |].
    intros Hd He. rewrite Hfwd. now apply astype_float32_fixed.
  - assert (Hflag' : SpectralConvS2.scale_residual self = true).
    { rewrite Hflag. destruct (negb _ || negb _) eqn:E; [reflexivity |].
      exfalso. apply Hres. now apply same_resolution_flag. }
    rewrite Hflag' in Hfwd. now split.
Qed.

End Residual.

(** Construction with the default operator type returns. *)
Lemma SpectralConvS2_init_dh_returns (a : SpectralConvS2.Args) (draw : list nat -> C) :
  SpectralConvS2.arg_operator_type a = "driscoll-healy" ->
  SpectralConvS2.in_channels a <> 0%nat ->
  0 <= SpectralConvS2.gain a ->
  lmax (SpectralConvS2.arg_inverse_transform a) <> 0%nat ->
  exists w,
    SpectralConvS2.init a draw =
      Ok {| SpectralConvS2.forward_transform := SpectralConvS2.arg_forward_transform a;
            SpectralConvS2.inverse_transform := SpectralConvS2.arg_inverse_transform a;
            SpectralConvS2.modes_lat := lmax (SpectralConvS2.arg_inverse_transform a);
            SpectralConvS2.modes_lon := mmax (SpectralConvS2.arg_inverse_transform a);
            SpectralConvS2.scale_residual :=
              negb (nlat (SpectralConvS2.arg_forward_transform a)
                    =? nlat (SpectralConvS2.arg_inverse_transform a))%nat
              || negb (nlon (SpectralConvS2.arg_forward_transform a)
                       =? nlon (SpectralConvS2.arg_inverse_transform a))%nat;
            SpectralConvS2.operator_type := "driscoll-healy";
            SpectralConvS2.weight := w;
            SpectralConvS2._contract := contract_dhconv;
            SpectralConvS2.bias :=
              if SpectralConvS2.arg_bias a
              then Some (full [1; SpectralConvS2.out_channels a; 1; 1]%nat 0)
              else None |}.
Proof.
  intros Hop Hin Hg Hl. unfold SpectralConvS2.init. rewrite Hop.
  cbn [Py.bind py_super isinstance existsb mro mro_fuel base PyClass_eqb orb Ok].
  rewrite !Nat.eqb_refl. cbn [py_assert Py.bind Ok].
  cbn [SpectralConvS2.dispatch String.eqb Ascii.eqb Bool.eqb Py.bind Ok andb].
  rewrite (weight_scale_ok Hin Hg Hl). cbn [Py.bind Ok].
  unfold broadcast_op.
  change (shape (as_real (SpectralConvS2.randn
            ([SpectralConvS2.out_channels a; SpectralConvS2.in_channels a]
             ++ [lmax (SpectralConvS2.arg_inverse_transform a)])%list draw)))
    with ([SpectralConvS2.out_channels a; SpectralConvS2.in_channels a]
          ++ [lmax (SpectralConvS2.arg_inverse_transform a); 2%nat])%list.
  change (shape (SpectralConvS2.imul_row0 (sqrt 2)
            (tmap (fun one => sqrt (SpectralConvS2.gain a
                                     / INR (SpectralConvS2.in_channels a)) * one)
               float32 (full [lmax (SpectralConvS2.arg_inverse_transform a); 2%nat] 1))))
    with [lmax (SpectralConvS2.arg_inverse_transform a); 2%nat].
  rewrite broadcast_shapes_suffix. cbn [Py.bind Ok].
  eexists. reflexivity.
Qed.

(** ** Spectral convolution: the weight *)

Lemma project_valid4 (d0 d1 d2 d3 i0 i1 i2 i3 : nat) :
  (i0 < d0)%nat -> (i1 < d1)%nat -> (i2 < d2)%nat -> (i3 < d3)%nat ->
  project [d0; d1; d2; d3] [i0; i1; i2; i3] = [i0; i1; i2; i3].
Proof.
  intros H0 H1 H2 H3. unfold project. simpl.
  destruct (Nat.eqb_spec d0 1), (Nat.eqb_spec d1 1), (Nat.eqb_spec d2 1),
    (Nat.eqb_spec d3 1); repeat f_equal; lia.
Qed.

Lemma project_trailing2 (d2 d3 i0 i1 i2 i3 : nat) :
  (i2 < d2)%nat -> (i3 < d3)%nat ->
  project [d2; d3] [i0; i1; i2; i3] = [i2; i3].
Proof.
  intros H2 H3. unfold project. simpl.
  destruct (Nat.eqb_spec d2 1), (Nat.eqb_spec d3 1); repeat f_equal; lia.
Qed.

(** The rows of the scale tensor of lines 283-284. *)
Lemma weight_scale_rows (gain : R) (in_channels modes_lat : nat) (scale : Tensor R) :
  SpectralConvS2.weight_scale gain in_channels modes_lat = Ok scale ->
  shape scale = [modes_lat; 2%nat] /\
  forall l c : nat,
    elem scale [l; c] =
      (if (l =? 0)%nat then sqrt 2 else 1) * sqrt (gain / INR in_channels).
Proof.
  intro Hs. apply weight_scale_inv in Hs as (_ & _ & _ & ->). split.
  - reflexivity.
  - intros l c. destruct l; simpl; ring.
Qed.

(** With the Driscoll-Healy operator the weight has one complex entry per
    (output, input, latitude mode), each the drawn entry times the scale of
    its latitude mode. *)
Lemma SpectralConvS2_dh_weight_entry (a : SpectralConvS2.Args) (draw : list nat -> C)
    (self : SpectralConvS2.t) :
  SpectralConvS2.init a draw = Ok self ->
  SpectralConvS2.arg_operator_type a = "driscoll-healy" ->
  forall o i l c : nat,
    (o < SpectralConvS2.out_channels a)%nat ->
    (i < SpectralConvS2.in_channels a)%nat ->
    (l < lmax (SpectralConvS2.arg_inverse_transform a))%nat ->
    (c < 2)%nat ->
    elem (SpectralConvS2.weight self) [o; i; l; c] =
      (if (l =? 0)%nat then sqrt 2 else 1)
      * sqrt (SpectralConvS2.gain a / INR (SpectralConvS2.in_channels a))
      * part c (draw [o; i; l]).
Proof.
  intros Hinit Hop o i l c Ho Hi Hl Hc.
  destruct (SpectralConvS2_init_fields _ _ Hinit)
    as (_ & _ & _ & _ & _ & ws & k & scale & Hd & Hs & Hw).
  rewrite Hop in Hd. injection Hd as <- _.
  apply weight_scale_inv in Hs as (_ & _ & _ & ->).
  unfold broadcast_op in Hw.
  cbn [shape SpectralConvS2.imul_row0 tmap full as_real SpectralConvS2.randn app] in Hw.
  pose proof (broadcast_shapes_suffix
                [lmax (SpectralConvS2.arg_inverse_transform a); 2%nat]
                [SpectralConvS2.out_channels a; SpectralConvS2.in_channels a]) as Hb.
  cbn [app] in Hb. rewrite Hb in Hw. injection Hw as <-.
  cbn [elem SpectralConvS2.weight].
  rewrite project_trailing2 by assumption.
  rewrite project_valid4 by assumption.
  cbn [removelast last].
  destruct l; simpl; ring.
Qed.

(** With the diagonal operator the scale tensor, of shape
    [(modes_lat, 2)], meets the trailing axes [(modes_lon, 2)] of the draw:
    on [lmax = 2], [mmax = 3] the product does not broadcast and construction
    raises. *)
Lemma SpectralConvS2_diagonal_scale_mismatch (draw : list nat -> C) :
  SpectralConvS2.init (Reference.conv_args "diagonal") draw =
    Raise (ValueError "Broadcast dimension mismatch").
Proof.
  unfold SpectralConvS2.init.
  cbn [Py.bind py_super isinstance existsb mro mro_fuel base PyClass_eqb orb Ok].
  rewrite !Nat.eqb_refl. cbn [py_assert Py.bind Ok].
  cbn [SpectralConvS2.dispatch Reference.conv_args SpectralConvS2.arg_operator_type
       String.eqb Ascii.eqb Bool.eqb Py.bind Ok andb].
  rewrite weight_scale_ok by (simpl; try discriminate; lra).
  reflexivity.
Qed.

(** C3, as the code has it.  The weight is the broadcast product of a scale
    tensor of shape [(modes_lat, 2)] with the real view of the standard
    complex-normal draw; the scale is [sqrt(gain / in_channels)] on every
    latitude mode but the zeroth, where it is [sqrt 2] times that value.
    For the Driscoll-Healy operator this is the factor of every weight
    entry. *)
Theorem SpectralConvS2_weight_scaling (a : SpectralConvS2.Args) (draw : list nat -> C)
    (self : SpectralConvS2.t) :
  SpectralConvS2.init a draw = Ok self ->
  let base := sqrt (SpectralConvS2.gain a / INR (SpectralConvS2.in_channels a)) in
  exists (scale : Tensor R) (weight_shape : list nat),
    shape scale = [SpectralConvS2.modes_lat self; 2%nat] /\
    (forall c, elem scale [0%nat; c] = sqrt 2 * base) /\
    (forall l c, l <> 0%nat -> elem scale [l; c] = base) /\
    broadcast_op Rmult float32 scale
      (as_real (SpectralConvS2.randn weight_shape draw))
      = Ok (SpectralConvS2.weight self) /\
    (SpectralConvS2.operator_type self = "driscoll-healy" ->
     forall o i l c : nat,
       (o < SpectralConvS2.out_channels a)%nat ->
       (i < SpectralConvS2.in_channels a)%nat ->
       (l < SpectralConvS2.modes_lat self)%nat ->
       (c < 2)%nat ->
       elem (SpectralConvS2.weight self) [o; i; l; c] =
         (if (l =? 0)%nat then sqrt 2 * base else base) * part c (draw [o; i; l])).
Proof.
  intros Hinit base.
  destruct (SpectralConvS2_init_fields _ _ Hinit)
    as (_ & _ & Hlat & Hop & _ & ws & k & scale & Hd & Hs & Hw).
  destruct (weight_scale_rows _ _ _ Hs) as [Hshape Hrows].
  exists scale, ws. rewrite Hlat, Hop.
  split; [exact Hshape |].
  split; [intro c; now rewrite Hrows |].
  split.
  { intros l c Hl. rewrite Hrows. apply Nat.eqb_neq in Hl. rewrite Hl.
    fold base. ring. }
  split; [exact Hw |].
  intros Hdh o i l c Ho Hi Hl Hc.
  rewrite (SpectralConvS2_dh_weight_entry _ _ Hinit Hdh Ho Hi Hl Hc).
  fold base. destruct (l =? 0)%nat; ring.
Qed.

(** C3 as stated fails: with [gain=2.0] and one input channel the scale is
    [sqrt 2]; the entry of the zeroth latitude mode drawn as [1 + 0i] is
    scaled to 2, not to the double [2 * sqrt 2]. *)
Lemma zeroth_mode_scale_not_doubled :
  exists self,
    SpectralConvS2.init (Reference.conv_args "driscoll-healy") (fun _ => (1, 0)) = Ok self /\
    elem (SpectralConvS2.weight self) [0; 0; 1; 0]%nat = sqrt (2 / INR 1) * 1 /\
    elem (SpectralConvS2.weight self) [0; 0; 0; 0]%nat <> 2 * sqrt (2 / INR 1) * 1.
Proof.
  assert (Hin : SpectralConvS2.in_channels (Reference.conv_args "driscoll-healy") <> 0%nat)
    by (simpl; discriminate).
  assert (Hg : 0 <= SpectralConvS2.gain (Reference.conv_args "driscoll-healy"))
    by (simpl; lra).
  assert (Hl : lmax (SpectralConvS2.arg_inverse_transform
                       (Reference.conv_args "driscoll-healy")) <> 0%nat)
    by (simpl; discriminate).
  destruct (SpectralConvS2_init_dh_returns (Reference.conv_args "driscoll-healy")
              (fun _ => (1, 0)) eq_refl Hin Hg Hl) as [w Hw].
  eexists. split; [exact Hw |].
  pose proof (@SpectralConvS2_dh_weight_entry _ _ _ Hw eq_refl) as Hentry.
  split.
  - rewrite (Hentry 0 0 1 0)%nat by (simpl; lia). simpl. ring.
  - rewrite (Hentry 0 0 0 0)%nat by (simpl; lia). simpl.
    replace (2 / 1) with 2 by lra.
    pose proof (sqrt_sqrt 2 ltac:(lra)) as Hsq.
    pose proof (sqrt_lt_R0 2 ltac:(lra)) as Hpos.
    intro Habs. nra.
Qed.

Lemma SpectralConvS2_weight_scaling_witness :
  exists self scale,
    SpectralConvS2.init (Reference.conv_args "driscoll-healy") (fun _ => (1, 0)) = Ok self /\
    shape scale = [2; 2]%nat /\
    elem scale [0; 0]%nat = sqrt 2 * sqrt (2 / INR 1).
Proof.
  assert (Hin : SpectralConvS2.in_channels (Reference.conv_args "driscoll-healy") <> 0%nat)
    by (simpl; discriminate).
  assert (Hg : 0 <= SpectralConvS2.gain (Reference.conv_args "driscoll-healy"))
    by (simpl; lra).
  assert (Hl : lmax (SpectralConvS2.arg_inverse_transform
                       (Reference.conv_args "driscoll-healy")) <> 0%nat)
    by (simpl; discriminate).
  destruct (SpectralConvS2_init_dh_returns (Reference.conv_args "driscoll-healy")
              (fun _ => (1, 0)) eq_refl Hin Hg Hl) as [w Hw].
  destruct (SpectralConvS2_weight_scaling _ _ Hw) as (scale & ws & Hshape & Hrow0 & _).
  eexists. exists scale. split; [exact Hw |]. split; [exact Hshape |]. apply Hrow0.
Defined.

(** ** Spectral convolution: the residual on a float64 input *)

Lemma conv_args_returns (draw : list nat -> C) :
  exists w,
    SpectralConvS2.init (Reference.conv_args "driscoll-healy") draw =
      Ok {| SpectralConvS2.forward_transform := Reference.retag_forward 2 4 2 3;
            SpectralConvS2.inverse_transform := Reference.retag_inverse 2 4 2 3;
            SpectralConvS2.modes_lat := 2;
            SpectralConvS2.modes_lon := 3;
            SpectralConvS2.scale_residual := false;
            SpectralConvS2.operator_type := "driscoll-healy";
            SpectralConvS2.weight := w;
            SpectralConvS2._contract := contract_dhconv;
            SpectralConvS2.bias := None |}.
Proof.
  assert (Hin : SpectralConvS2.in_channels (Reference.conv_args "driscoll-healy") <> 0%nat)
    by (simpl; discriminate).
  assert (Hg : 0 <= SpectralConvS2.gain (Reference.conv_args "driscoll-healy"))
    by (simpl; lra).
  assert (Hl : lmax (SpectralConvS2.arg_inverse_transform
                       (Reference.conv_args "driscoll-healy")) <> 0%nat)
    by (simpl; discriminate).
  destruct (SpectralConvS2_init_dh_returns (Reference.conv_args "driscoll-healy")
              draw eq_refl Hin Hg Hl) as [w Hw].
  exists w. exact Hw.
Qed.

(** C1 as stated fails: on transforms of equal resolution, a float64 input
    comes back as a float32 residual, which is not the input. *)
Lemma residual_of_float64_input_is_not_the_input :
  exists self out res,
    SpectralConvS2.init (Reference.conv_args "driscoll-healy") (fun _ => (1, 0)) = Ok self /\
    nlat (SpectralConvS2.forward_transform self)
      = nlat (SpectralConvS2.inverse_transform self) /\
    nlon (SpectralConvS2.forward_transform self)
      = nlon (SpectralConvS2.inverse_transform self) /\
    @SpectralConvS2.forward Reference.exact_precision Reference.passthrough_contractions
      self Reference.ones64 = Ok (out, res) /\
    dtype res = float32 /\
    res <> Reference.ones64.
Proof.
  destruct (conv_args_returns (fun _ => (1, 0))) as [w Hw].
  eexists. eexists. eexists.
  split; [exact Hw |].
  split; [reflexivity |]. split; [reflexivity |].
  split; [reflexivity |].
  split; [reflexivity |].
  intro Habs. apply (f_equal (@dtype R)) in Habs. discriminate Habs.
Qed.

Lemma SpectralConvS2_residual_witness :
  exists self out res,
    SpectralConvS2.init (Reference.conv_args "driscoll-healy") (fun _ => (1, 0)) = Ok self /\
    @SpectralConvS2.forward Reference.exact_precision Reference.passthrough_contractions
      self Reference.ones64 = Ok (out, res) /\
    res = @astype Reference.exact_precision float32 Reference.ones64.
Proof.
  destruct (conv_args_returns (fun _ => (1, 0))) as [w Hw].
  eexists. eexists. eexists.
  split; [exact Hw |].
  split; [reflexivity |].
  refine (proj1 (proj2 (proj1
            (@SpectralConvS2_residual Reference.exact_precision
               Reference.passthrough_contractions
               (Reference.conv_args "driscoll-healy") (fun _ => (1, 0))
               _ Reference.ones64 _ _ Hw eq_refl)
            (conj eq_refl eq_refl)))).
Defined.

(** ** Gaussian random field: construction *)

Section RandomFieldConstruction.

Context `{FP : FloatPow} `{Sht : GaussianRandomFieldS2.SHT} `{Prec : Precision}.

Import GaussianRandomFieldS2.

(** With [sigma] unset and [alpha <= 1] the assertion fails. *)
Lemma GRF_init_alpha_le (a : Args) :
  sigma a = None -> alpha a <= 1 ->
  init a = Raise (AssertionError (alpha_message (alpha a))).
Proof.
  intros Hs Ha. unfold init. rewrite Hs. cbn [Py.bind].
  now rewrite (Rltb_false Ha).
Qed.

(** With [sigma] unset and [alpha > 1] the construction is the one with
    [sigma] given as [tau ** (alpha - 1)]. *)
Lemma GRF_init_alpha_gt (a : Args) :
  sigma a = None -> 1 < alpha a ->
  init a = init (with_sigma a (float_pow (tau a) (alpha a - 1))).
Proof.
  intros Hs Ha. unfold init. rewrite Hs. cbn [Py.bind sigma with_sigma].
  rewrite (Rltb_true Ha). cbn [py_assert Py.bind Ok].
  replace (0.5 * (2 * alpha a - 2)) with (alpha a - 1) by lra.
  reflexivity.
Qed.

(** With [sigma] given, the only statements that can raise are the
    constructor of the inverse transform and the zeroing of entry
    [(0, 0)] of the table. *)
Lemma GRF_init_given_raises (a : Args) (s : R) (e : PyExc) :
  sigma a = Some s -> init a = Raise e ->
  isht_check (arg_nlat a) (2 * arg_nlat a) (grid a) "backward" = Raise e
  \/ arg_nlat a = 0%nat.
Proof.
  intros Hs. unfold init, InverseRealSHT_new, sqrt_eig_table. rewrite Hs.
  cbn [Py.bind Ok].
  destruct (isht_check _ _ _ _) as [e' | []]; cbn [Py.bind Ok Raise].
  - intro H. left. unfold Raise in *. injection H as ->. reflexivity.
  - destruct (Nat.eqb_spec (arg_nlat a) 0) as [E | N]; cbn [Py.bind Ok Raise].
    + intros _. right. exact E.
    + intro H. discriminate H.
Qed.

(** With [sigma] given, a transform that builds and at least one latitude
    the construction returns; the object holds the table with a leading
    axis of extent 1 and a sampler over buffers of shape [(1)]. *)
Lemma GRF_init_given_returns (a : Args) (s : R) :
  sigma a = Some s ->
  isht_check (arg_nlat a) (2 * arg_nlat a) (grid a) "backward" = Ok tt ->
  arg_nlat a <> 0%nat ->
  exists self,
    init a = Ok self /\
    nlat self = arg_nlat a /\
    isht_nlat (isht self) = arg_nlat a /\
    isht_nlon (isht self) = (2 * arg_nlat a)%nat /\
    shape (sqrt_eig self) = [1%nat; arg_nlat a; (arg_nlat a + 1)%nat] /\
    shape (loc (gaussian_noise self)) = [1%nat] /\
    shape (scale (gaussian_noise self)) = [1%nat].
Proof.
  intros Hs Hg Hn. unfold init, InverseRealSHT_new, sqrt_eig_table. rewrite Hs, Hg.
  cbn [Py.bind Ok]. apply Nat.eqb_neq in Hn. rewrite Hn. cbn [Py.bind Ok].
  eexists. split; [reflexivity |]. repeat split.
Qed.

(** What a constructed object holds, whatever the arguments. *)
Lemma GRF_init_fields (a : Args) (self : t) :
  init a = Ok self ->
  nlat self = arg_nlat a /\
  isht_nlat (isht self) = arg_nlat a /\
  isht_nlon (isht self) = (2 * arg_nlat a)%nat /\
  shape (sqrt_eig self) = [1%nat; arg_nlat a; (arg_nlat a + 1)%nat] /\
  shape (loc (gaussian_noise self)) = [1%nat] /\
  shape (scale (gaussian_noise self)) = [1%nat].
Proof.
  unfold init. intro Hinit.
  bind_inv Hinit. bind_inv Hinit. bind_inv Hinit.
  unfold InverseRealSHT_new in Hv0.
  destruct (isht_check _ _ _ _) as [e | []]; [discriminate Hv0 |].
  cbn [Py.bind Ok] in Hv0. injection Hv0 as <-.
  unfold sqrt_eig_table in Hv1.
  destruct (arg_nlat a =? 0)%nat; [discriminate Hv1 |].
  injection Hv1 as <-. injection Hinit as <-.
  repeat split.
Qed.

(** The scale the table is built with: [sigma] when given, its default
    otherwise. *)
Lemma GRF_init_table (a : Args) (self : t) :
  init a = Ok self ->
  sqrt_eig_table (arg_nlat a)
    (match sigma a with
     | Some s => s
     | None => float_pow (tau a) (0.5 * (2 * alpha a - 2))
     end) (alpha a) (tau a) (radius a) = Ok (sqrt_eig self).
Proof.
  unfold init. intro Hinit.
  bind_inv Hinit. bind_inv Hinit. bind_inv Hinit. injection Hinit as <-.
  cbn [sqrt_eig]. rewrite <- Hv1. f_equal.
  destruct (sigma a) as [s |].
  - now injection Hv as <-.
  - bind_inv Hv. now injection Hv as <-.
Qed.

Lemma GRF_table_entries (n : nat) (s al ta ra : R) (tab : Tensor R) :
  sqrt_eig_table n s al ta ra = Ok tab ->
  shape tab = [1%nat; n; (n + 1)%nat] /\
  elem tab [0; 0; 0]%nat = 0 /\
  (forall j m, (j < m)%nat -> elem tab [0%nat; j; m] = 0) /\
  (forall j m, (m <= j)%nat -> j <> 0%nat ->
     elem tab [0%nat; j; m] =
       s * float_pow (INR (j * (j + 1)) / float_pow ra 2 + float_pow ta 2) (- al / 2)).
Proof.
  unfold sqrt_eig_table. destruct (n =? 0)%nat; [discriminate |].
  intro H. injection H as <-.
  split; [reflexivity |]. split; [reflexivity |]. split.
  - intros j m Hjm. cbn [elem unsqueeze0 tl tmap].
    destruct j as [| j]; destruct m as [| m]; try lia.
    + reflexivity.
    + destruct (Nat.leb_spec (S m) (S j)); [lia | reflexivity].
  - intros j m Hmj Hj. cbn [elem unsqueeze0 tl tmap hd].
    destruct j as [| j]; [contradiction |].
    destruct (Nat.leb_spec m (S j)); [reflexivity | lia].
Qed.

(** C7. With [sigma] unset, the assertion on [alpha] is evaluated first:
    for [alpha <= 1] construction fails on it, with the message that
    carries [alpha], before anything else is evaluated.  For [alpha > 1]
    construction goes on as with [sigma = tau ** (alpha - 1)] given (the
    real power for a positive [tau]), and that is the factor of every kept
    entry of the table of the object built.  Where the inverse transform
    can be built and there is a latitude, construction fails exactly when
    [alpha <= 1] and returns exactly when [alpha > 1]. *)
Theorem GRF_sigma_default (a : Args) :
  sigma a = None ->
  (alpha a <= 1 -> init a = Raise (AssertionError (alpha_message (alpha a)))) /\
  (1 < alpha a ->
     init a = init (with_sigma a (float_pow (tau a) (alpha a - 1))) /\
     (0 < tau a -> float_pow (tau a) (alpha a - 1) = Rpower (tau a) (alpha a - 1)) /\
     (forall self, init a = Ok self ->
        forall j m, (m <= j)%nat -> j <> 0%nat ->
          elem (sqrt_eig self) [0%nat; j; m] =
            float_pow (tau a) (alpha a - 1)
            * float_pow (INR (j * (j + 1)) / float_pow (radius a) 2
                         + float_pow (tau a) 2) (- alpha a / 2))) /\
  (isht_check (arg_nlat a) (2 * arg_nlat a) (grid a) "backward" = Ok tt ->
   arg_nlat a <> 0%nat ->
     (raises (init a) <-> alpha a <= 1) /\ (returns (init a) <-> 1 < alpha a)).
Proof.
  intro Hs.
  assert (Hgt : 1 < alpha a ->
                init a = init (with_sigma a (float_pow (tau a) (alpha a - 1))))
    by (intro Ha; now apply GRF_init_alpha_gt).
  assert (Hret : isht_check (arg_nlat a) (2 * arg_nlat a) (grid a) "backward" = Ok tt ->
                 arg_nlat a <> 0%nat -> 1 < alpha a -> returns (init a)).
  { intros Hg Hn Ha. rewrite (Hgt Ha).
    destruct (@GRF_init_given_returns
                (with_sigma a (float_pow (tau a) (alpha a - 1))) _ eq_refl Hg Hn)
      as (self & -> & _).
    exact I. }
  split; [| split].
  - intro Ha. now apply GRF_init_alpha_le.
  - intro Ha. split; [exact (Hgt Ha) |]. split.
    + intro Htau. now apply float_pow_pos.
    + intros self Hinit j m Hmj Hj.
      destruct (GRF_table_entries _ _ _ _ _ (GRF_init_table a Hinit))
        as (_ & _ & _ & Hentry).
      rewrite (Hentry j m Hmj Hj), Hs.
      replace (0.5 * (2 * alpha a - 2)) with (alpha a - 1) by lra.
      reflexivity.
  - intros Hg Hn. split; split.
    + intro Hr. destruct (Rle_or_lt (alpha a) 1) as [Hle | Hlt]; [exact Hle |].
      exfalso. pose proof (Hret Hg Hn Hlt) as Hok.
      destruct (init a); [destruct Hok | destruct Hr].
    + intro Ha. rewrite (GRF_init_alpha_le a Hs Ha). exact I.
    + intro Hok. destruct (Rle_or_lt (alpha a) 1) as [Hle | Hlt]; [| exact Hlt].
      exfalso. rewrite (GRF_init_alpha_le a Hs Hle) in Hok. destruct Hok.
    + intro Ha. exact (Hret Hg Hn Ha).
Qed.

End RandomFieldConstruction.

(** [GaussianRandomFieldS2(n)] with the defaults, on a transform module that
    builds for [n] latitudes. *)
Lemma grf_default_returns (n : nat) :
  (2 <= n)%nat ->
  exists self,
    @GaussianRandomFieldS2.init Reference.real_power Reference.zero_sht
      Reference.exact_precision
      (GaussianRandomFieldS2.mkArgs n 2 3 None 1 "equiangular" float32) = Ok self /\
    GaussianRandomFieldS2.nlat self = n /\
    GaussianRandomFieldS2.isht_nlat (GaussianRandomFieldS2.isht self) = n /\
    GaussianRandomFieldS2.isht_nlon (GaussianRandomFieldS2.isht self) = (2 * n)%nat /\
    shape (GaussianRandomFieldS2.sqrt_eig self) = [1%nat; n; (n + 1)%nat] /\
    shape (GaussianRandomFieldS2.loc (GaussianRandomFieldS2.gaussian_noise self)) = [1%nat] /\
    shape (GaussianRandomFieldS2.scale (GaussianRandomFieldS2.gaussian_noise self)) = [1%nat].
Proof.
  intro Hn.
  rewrite (@GRF_init_alpha_gt Reference.real_power Reference.zero_sht
             Reference.exact_precision
             (GaussianRandomFieldS2.mkArgs n 2 3 None 1 "equiangular" float32) eq_refl)
    by (simpl; lra).
  apply (@GRF_init_given_returns Reference.real_power Reference.zero_sht
           Reference.exact_precision
           (GaussianRandomFieldS2.with_sigma
              (GaussianRandomFieldS2.mkArgs n 2 3 None 1 "equiangular" float32) _)
           _ eq_refl).
  - cbn [GaussianRandomFieldS2.isht_check Reference.zero_sht
         GaussianRandomFieldS2.arg_nlat GaussianRandomFieldS2.with_sigma
         GaussianRandomFieldS2.grid].
    destruct (Nat.eqb_spec n 1) as [E | _]; [lia | reflexivity].
  - cbn [GaussianRandomFieldS2.arg_nlat GaussianRandomFieldS2.with_sigma]. lia.
Qed.

Lemma grf_args_returns :
  exists self,
    @GaussianRandomFieldS2.init Reference.real_power Reference.zero_sht
      Reference.exact_precision Reference.grf_args = Ok self /\
    GaussianRandomFieldS2.nlat self = 2%nat /\
    GaussianRandomFieldS2.isht_nlat (GaussianRandomFieldS2.isht self) = 2%nat /\
    GaussianRandomFieldS2.isht_nlon (GaussianRandomFieldS2.isht self) = 4%nat /\
    shape (GaussianRandomFieldS2.sqrt_eig self) = [1; 2; 3]%nat /\
    shape (GaussianRandomFieldS2.loc (GaussianRandomFieldS2.gaussian_noise self)) = [1%nat] /\
    shape (GaussianRandomFieldS2.scale (GaussianRandomFieldS2.gaussian_noise self)) = [1%nat].
Proof. exact (grf_default_returns (le_n 2)). Qed.

(** [GaussianRandomFieldS2(2)]: the object is built, and its table entry of
    degree 1 and order 1 carries [sigma = 3 ** (2 - 1)]. *)
Lemma GRF_sigma_default_witness :
  GaussianRandomFieldS2.sigma Reference.grf_args = None /\
  exists self,
    @GaussianRandomFieldS2.init Reference.real_power Reference.zero_sht
      Reference.exact_precision Reference.grf_args = Ok self /\
    elem (GaussianRandomFieldS2.sqrt_eig self) [0; 1; 1]%nat
      = Rpower 3 (2 - 1)
        * Rpower (INR (1 * (1 + 1)) / Rpower 1 2 + Rpower 3 2) (- 2 / 2).
Proof.
  split; [reflexivity |].
  destruct (@GRF_sigma_default Reference.real_power Reference.zero_sht
              Reference.exact_precision Reference.grf_args eq_refl)
    as (_ & Hgt & _).
  destruct (Hgt ltac:(simpl; lra)) as (_ & _ & Hentry).
  destruct grf_args_returns as (self & Hinit & _).
  exists self. split; [exact Hinit |].
  exact (Hentry self Hinit 1%nat 1%nat (le_n 1) ltac:(discriminate)).
Defined.

(** ** Gaussian random field: the shape of a sample *)

Section RandomFieldSampling.

Context `{Sht : GaussianRandomFieldS2.SHT}.

Import GaussianRandomFieldS2.

(** The sample drawn by [forward] has a trailing axis of extent 1, the
    batch shape of the sampler. *)
Lemma Normal_sample_shape (d : Normal) (sample_shape : list nat) (draw : list nat -> R) :
  shape (loc d) = [1%nat] -> shape (scale d) = [1%nat] ->
  exists s, Normal_sample d sample_shape draw = Ok s /\
            shape s = (sample_shape ++ [1%nat])%list.
Proof.
  intros Hl Hs. unfold Normal_sample, broadcast_op. rewrite Hl, Hs.
  cbn [broadcast_shapes broadcast_rev rev app option_map Nat.eqb Py.bind Ok shape].
  eexists. split; reflexivity.
Qed.

(** Squeezing drops the trailing axis, and the batch axis too when one
    function is sampled. *)
Lemma squeeze_sample_shape (N n : nat) :
  (2 <= n)%nat ->
  squeeze_shape [N; n; (n + 1)%nat; 2%nat; 1%nat] =
    if (N =? 1)%nat then [n; (n + 1)%nat; 2%nat] else [N; n; (n + 1)%nat; 2%nat].
Proof.
  intro Hn. unfold squeeze_shape. cbn [filter].
  destruct (Nat.eqb_spec n 1) as [E | _]; [lia |].
  destruct (Nat.eqb_spec (n + 1) 1) as [E | _]; [lia |].
  destruct (N =? 1)%nat; reflexivity.
Qed.

(** The noise multiplied by the table: its batch axis, dropped by the
    squeeze when [N] is 1, comes back from the leading axis of the table. *)
Lemma noise_times_table_shape (N n : nat) :
  broadcast_shapes
    (if (N =? 1)%nat then [n; (n + 1)%nat] else [N; n; (n + 1)%nat])
    [1%nat; n; (n + 1)%nat]
  = Some [N; n; (n + 1)%nat].
Proof.
  destruct (Nat.eqb_spec N 1) as [-> | HN].
  - exact (broadcast_shapes_suffix [n; (n + 1)%nat] [1%nat]).
  - unfold broadcast_shapes. cbn [rev app broadcast_rev].
    rewrite !Nat.eqb_refl. apply Nat.eqb_neq in HN. rewrite HN.
    reflexivity.
Qed.

(** The noise [forward] uses when [xi] is [None], its product with the
    table, and the field returned. *)
Lemma GRF_noise_and_field_shapes (self : t) (N : nat) (draw : list nat -> R) :
  (2 <= nlat self)%nat ->
  isht_nlat (isht self) = nlat self ->
  isht_nlon (isht self) = (2 * nlat self)%nat ->
  shape (sqrt_eig self) = [1%nat; nlat self; (nlat self + 1)%nat] ->
  shape (loc (gaussian_noise self)) = [1%nat] ->
  shape (scale (gaussian_noise self)) = [1%nat] ->
  exists xi p u,
    (s <- Normal_sample (gaussian_noise self)
            [N; nlat self; (nlat self + 1)%nat; 2%nat] draw ;;
     as_complex (squeeze s)) = Ok xi /\
    shape xi = (if (N =? 1)%nat then [nlat self; (nlat self + 1)%nat]
                else [N; nlat self; (nlat self + 1)%nat]) /\
    broadcast_op Cscale (dtype xi) xi (sqrt_eig self) = Ok p /\
    shape p = [N; nlat self; (nlat self + 1)%nat] /\
    forward self N None draw = Ok u /\
    shape u = [N; nlat self; (2 * nlat self)%nat].
Proof.
  intros Hn Hlat Hlon Htab Hl Hs.
  destruct (Normal_sample_shape (gaussian_noise self)
              [N; nlat self; (nlat self + 1)%nat; 2%nat] draw Hl Hs) as (s & Hsample & Hshape).
  cbn [app] in Hshape.
  assert (Hxi : exists xi,
             as_complex (squeeze s) = Ok xi /\
             shape xi = (if (N =? 1)%nat then [nlat self; (nlat self + 1)%nat]
                         else [N; nlat self; (nlat self + 1)%nat])).
  { unfold as_complex, squeeze. cbn [shape]. rewrite Hshape.
    rewrite (squeeze_sample_shape N Hn).
    destruct (N =? 1)%nat; cbn [rev app]; eexists; split; reflexivity. }
  destruct Hxi as (xi & Hxi & Hxishape).
  assert (Hp : exists p,
             broadcast_op Cscale (dtype xi) xi (sqrt_eig self) = Ok p /\
             shape p = [N; nlat self; (nlat self + 1)%nat]).
  { unfold broadcast_op. rewrite Hxishape, Htab, noise_times_table_shape.
    eexists. split; reflexivity. }
  destruct Hp as (p & Hp & Hpshape).
  assert (Hu : exists u,
             forward self N None draw = Ok u /\
             shape u = [N; nlat self; (2 * nlat self)%nat]).
  { unfold forward. rewrite Hsample. cbn [Py.bind Ok].
    rewrite Hxi. cbn [Py.bind Ok]. rewrite Hp. cbn [Py.bind Ok].
    unfold isht_call. rewrite Hpshape. cbn [rev app]. rewrite Hlat, Hlon.
    eexists. split; reflexivity. }
  destruct Hu as (u & Hu & Hushape).
  exists xi, p, u. rewrite Hsample. cbn [Py.bind Ok].
  repeat split; assumption.
Qed.

(** C10, as the code has it.  With [xi = None] the sample is squeezed over
    all axes of extent 1, so for [N = 1] the noise has no batch axis; the
    table it is multiplied with has a leading axis of extent 1, so the
    coefficients handed to the inverse transform have shape
    [(N, nlat, nlat+1)] and the field returned has shape
    [(N, nlat, 2*nlat)] for every [N], [N = 1] included. *)
Theorem GRF_forward_shape `{FP : FloatPow} `{Prec : Precision}
    (a : Args) (self : t) (N : nat) (draw : list nat -> R) :
  init a = Ok self ->
  (2 <= arg_nlat a)%nat ->
  exists xi p u,
    (s <- Normal_sample (gaussian_noise self)
            [N; nlat self; (nlat self + 1)%nat; 2%nat] draw ;;
     as_complex (squeeze s)) = Ok xi /\
    shape xi = (if (N =? 1)%nat then [arg_nlat a; (arg_nlat a + 1)%nat]
                else [N; arg_nlat a; (arg_nlat a + 1)%nat]) /\
    broadcast_op Cscale (dtype xi) xi (sqrt_eig self) = Ok p /\
    shape p = [N; arg_nlat a; (arg_nlat a + 1)%nat] /\
    forward self N None draw = Ok u /\
    shape u = [N; arg_nlat a; (2 * arg_nlat a)%nat].
Proof.
  intros Hinit Hn.
  destruct (GRF_init_fields _ Hinit) as (Hnlat & Hlat & Hlon & Htab & Hl & Hs).
  rewrite <- Hnlat in *.
  exact (GRF_noise_and_field_shapes self N draw Hn Hlat Hlon Htab Hl Hs).
Qed.

End RandomFieldSampling.

(** C10 as stated fails: for [N = 1] and [nlat = 2] the field returned has
    shape [(1, 2, 4)], with the leading batch axis, not [(2, 4)]. *)
Lemma single_sample_keeps_batch_axis :
  exists self xi p u,
    @GaussianRandomFieldS2.init Reference.real_power Reference.zero_sht
      Reference.exact_precision Reference.grf_args = Ok self /\
    broadcast_op GaussianRandomFieldS2.Cscale (dtype xi) xi
      (GaussianRandomFieldS2.sqrt_eig self) = Ok p /\
    shape xi = [2; 3]%nat /\
    shape p = [1; 2; 3]%nat /\
    @GaussianRandomFieldS2.forward Reference.zero_sht self 1 None (fun _ => 0) = Ok u /\
    shape u = [1; 2; 4]%nat /\
    shape u <> [GaussianRandomFieldS2.nlat self; (2 * GaussianRandomFieldS2.nlat self)%nat].
Proof.
  destruct grf_args_returns as (self & Hinit & Hnlat & Hlat & Hlon & Htab & Hl & Hs).
  rewrite <- Hnlat in Hlat, Htab.
  assert (Hlon' : GaussianRandomFieldS2.isht_nlon (GaussianRandomFieldS2.isht self)
                  = (2 * GaussianRandomFieldS2.nlat self)%nat) by (rewrite Hnlat; exact Hlon).
  assert (Htab' : shape (GaussianRandomFieldS2.sqrt_eig self)
                  = [1%nat; GaussianRandomFieldS2.nlat self;
                     (GaussianRandomFieldS2.nlat self + 1)%nat])
    by (rewrite Htab, Hnlat; reflexivity).
  destruct (@GRF_noise_and_field_shapes Reference.zero_sht self 1 (fun _ => 0)
              ltac:(rewrite Hnlat; lia) Hlat Hlon' Htab' Hl Hs)
    as (xi & p & u & _ & Hxi & Hp & Hpshape & Hu & Hshape).
  exists self, xi, p, u. split; [exact Hinit |]. split; [exact Hp |].
  rewrite Hxi, Hpshape, Hshape, Hnlat.
  split; [reflexivity |]. split; [reflexivity |]. split; [exact Hu |].
  split; [reflexivity |]. discriminate.
Qed.

Lemma GRF_forward_shape_witness :
  exists self u,
    @GaussianRandomFieldS2.init Reference.real_power Reference.zero_sht
      Reference.exact_precision Reference.grf_args = Ok self /\
    @GaussianRandomFieldS2.forward Reference.zero_sht self 3 None (fun _ => 0) = Ok u /\
    shape u = [3; 2; 4]%nat.
Proof.
  destruct grf_args_returns as (self & Hinit & _).
  destruct (@GRF_forward_shape Reference.zero_sht Reference.real_power
              Reference.exact_precision Reference.grf_args self 3 (fun _ => 0)
              Hinit ltac:(simpl; lia))
    as (xi & p & u & _ & _ & _ & _ & Hu & Hshape).
  exists self, u. split; [exact Hinit |]. split; [exact Hu |]. exact Hshape.
Defined.

(* ================================================================== *)
(** * Further properties *)
(* ================================================================== *)

(** ** Truncated normal: errors and warnings *)

Section TruncNormalMore.

Context `{SF : SpecialFunctions}.

(** X1. With an increasing error function, [trunc_normal_] writes nothing
    when its arguments give no interval to draw from: [std = 0] raises
    [ZeroDivisionError] at the division of line 65, and a negative [std]
    with [a < b] puts the bounds of [uniform_] out of order, which raises
    [ValueError] at line 70; the buffer is left as it was. *)
Theorem trunc_normal_unusable_std (tensor : Tensor R) (mean std a b : R)
    (rnd : list nat -> R) :
  (forall x y, x < y -> erf x < erf y) ->
  (std = 0 ->
   outcome (trunc_normal_ tensor mean std a b rnd)
     = Raise (ZeroDivisionError "float division by zero") /\
   buffer (trunc_normal_ tensor mean std a b rnd) = tensor) /\
  (std < 0 -> a < b ->
   outcome (trunc_normal_ tensor mean std a b rnd)
     = Raise (ValueError "uniform_ expects min to be less than max") /\
   buffer (trunc_normal_ tensor mean std a b rnd) = tensor).
Proof.
  intro Herf. split.
  - intros ->. apply trunc_normal_zero_std.
  - intros Hstd Hab. apply trunc_normal_bounds_refused; [lra |].
    pose proof (sqrt_lt_R0 2 ltac:(lra)) as Hs2.
    assert (Hz : (b - mean) / std / sqrt 2 < (a - mean) / std / sqrt 2).
    { assert (Hi : / std < 0) by now apply Rinv_lt_0_compat.
      assert (Hq : 0 < / sqrt 2) by now apply Rinv_0_lt_compat.
      assert (Hz1 : (b - mean) / std < (a - mean) / std) by (unfold Rdiv; nra).
      unfold Rdiv in *. nra. }
    pose proof (Herf _ _ Hz) as He. unfold norm_cdf. lra.
Qed.

(** X2. The warning is emitted exactly when [mean] lies more than two [std]
    outside [[a, b]]; it is emitted before anything else is evaluated, so
    also by the calls that raise, which is all of them. *)
Theorem trunc_normal_warning (tensor : Tensor R) (mean std a b : R)
    (rnd : list nat -> R) :
  (warned (trunc_normal_ tensor mean std a b rnd) = [trunc_warning]
   <-> mean < a - 2 * std \/ b + 2 * std < mean) /\
  (warned (trunc_normal_ tensor mean std a b rnd) = []
   <-> a - 2 * std <= mean <= b + 2 * std) /\
  (forall out, outcome (trunc_normal_ tensor mean std a b rnd) <> Ok out).
Proof.
  assert (Hw : warned (trunc_normal_ tensor mean std a b rnd)
               = if Rltb mean (a - 2 * std) || Rltb (b + 2 * std) mean
                 then [trunc_warning] else []).
  { unfold trunc_normal_, _no_grad_trunc_normal_.
    destruct (and_then _ _ tensor) as [buf r]. reflexivity. }
  split; [| split].
  - rewrite Hw. unfold Rltb.
    destruct (Rlt_dec mean (a - 2 * std)) as [L1 | N1];
      destruct (Rlt_dec (b + 2 * std) mean) as [L2 | N2]; cbn [orb];
      split; intro Hx; try reflexivity;
      try (left; exact L1); try (right; exact L2);
      try discriminate Hx; destruct Hx; contradiction.
  - rewrite Hw. unfold Rltb.
    destruct (Rlt_dec mean (a - 2 * std)) as [L1 | N1];
      destruct (Rlt_dec (b + 2 * std) mean) as [L2 | N2]; cbn [orb];
      split; intro Hx; try reflexivity; try discriminate Hx;
      try (exfalso; lra); lra.
  - intros out Hout.
    destruct (@trunc_normal_always_raises _ tensor mean std a b rnd) as [e He].
    rewrite He in Hout. discriminate Hout.
Qed.

End TruncNormalMore.

Lemma trunc_normal_unusable_std_witness :
  (forall x y, x < y ->
     @erf Reference.identity_special x < @erf Reference.identity_special y) /\
  outcome (@trunc_normal_ Reference.identity_special
             (full [2; 3]%nat 7) 0 (-1) (-2) 2 (fun _ => / 2))
    = Raise (ValueError "uniform_ expects min to be less than max") /\
  buffer (@trunc_normal_ Reference.identity_special
            (full [2; 3]%nat 7) 0 (-1) (-2) 2 (fun _ => / 2))
    = full [2; 3]%nat 7.
Proof.
  assert (Hinc : forall x y, x < y ->
            @erf Reference.identity_special x < @erf Reference.identity_special y)
    by (intros x y Hxy; exact Hxy).
  split; [exact Hinc |].
  apply (proj2 (@trunc_normal_unusable_std Reference.identity_special
                  (full [2; 3]%nat 7) 0 (-1) (-2) 2 (fun _ => / 2) Hinc)); lra.
Defined.

(** ** Indices within a shape *)

Lemma Forall2_rev_both {A B} (P : A -> B -> Prop) (l1 : list A) (l2 : list B) :
  Forall2 P l1 l2 -> Forall2 P (rev l1) (rev l2).
Proof.
  induction 1 as [| x y l1 l2 Hxy _ IH]; simpl.
  - constructor.
  - apply Forall2_app; [exact IH | now repeat constructor].
Qed.

Lemma project_rev_valid (s idx : list nat) :
  Forall2 (fun i d => (i < d)%nat) idx s -> project_rev s idx = idx.
Proof.
  intro H. induction H as [| i d idx s Hid _ IH]; simpl.
  - reflexivity.
  - rewrite IH. destruct (Nat.eqb_spec d 1) as [-> | _]; [| reflexivity].
    f_equal. lia.
Qed.

(** An index within the shape of an operand is its own projection. *)
Lemma project_valid (s idx : list nat) :
  Forall2 (fun i d => (i < d)%nat) idx s -> project s idx = idx.
Proof.
  intro H. unfold project.
  rewrite (project_rev_valid (Forall2_rev_both H)). apply rev_involutive.
Qed.

(** ** Stochastic depth in training *)


(** X6. The layer [DropPath] is the identity in evaluation mode (with the
    default [drop_prob=None] too) and with [drop_prob = 0]; built with the
    default [drop_prob=None] it raises [TypeError] when run in training
    mode, where [1.0 - None] is evaluated. *)
Theorem DropPath_forward_cases (self : DropPath.t) (x : Tensor R) (rnd : list nat -> R) :
  (DropPath.training self = false -> DropPath.forward self x rnd = Ok x) /\
  (DropPath.drop_prob self = Some 0 -> DropPath.forward self x rnd = Ok x) /\
  (DropPath.drop_prob self = None -> DropPath.training self = true ->
   DropPath.forward self x rnd =
     Raise (TypeError "unsupported operand type(s) for -: 'float' and 'NoneType'")) /\
  DropPath.forward (DropPath.init None) x rnd =
    Raise (TypeError "unsupported operand type(s) for -: 'float' and 'NoneType'").
Proof.
  unfold DropPath.forward, DropPath.drop_path. repeat split.
  - intro Ht. rewrite Ht. destruct (DropPath.drop_prob self); cbn [negb];
      [now rewrite orb_true_r | reflexivity].
  - intro Hp. rewrite Hp. now rewrite (Reqb_true (eq_refl 0)).
  - intros Hp Ht. now rewrite Hp, Ht.
Qed.


(** ** Feed-forward block: checkpointing *)

(** X7. A request for checkpointing is refused at construction with an
    [AssertionError], before any layer is built and whatever the other
    arguments are: [checkpoint_forward] is never reached through a
    constructed [MLP]. *)
Theorem MLP_checkpointing_refused `{Init_ : MLP.Initializer} `{Conv_ : MLP.ConvModule}
    (a : MLP.Args) :
  MLP.arg_checkpointing a = true ->
  MLP.init a = Raise (AssertionError "Paddle not support checkpointing").
Proof.
  intro Hc. unfold MLP.init.
  cbn [Py.bind py_super isinstance existsb mro mro_fuel base PyClass_eqb orb Ok].
  now rewrite Hc.
Qed.

Lemma MLP_checkpointing_refused_witness :
  MLP.arg_checkpointing Reference.mlp_args_checkpointing = true /\
  @MLP.init Reference.plain_initializer Reference.conv2d_bias_attr
    Reference.mlp_args_checkpointing
  = Raise (AssertionError "Paddle not support checkpointing").
Proof.
  split; [reflexivity |].
  apply (@MLP_checkpointing_refused Reference.plain_initializer
           Reference.conv2d_bias_attr Reference.mlp_args_checkpointing).
  reflexivity.
Defined.

(** ** The FFT wrappers *)

(** X10. [RealFFT2.forward] passes the axes of the transform under the
    keyword [axis]; when [paddle.fft.rfft2] declares neither a parameter of
    that name nor a catch-all (its parameter is [axes]), the forward pass
    raises [TypeError] on every input, before any row of the spectrum is
    selected. *)
Theorem RealFFT2_forward_axis_refused `{Rfft : FFTWrappers.RFFT}
    (self : Transform R C) (x : Tensor R) :
  var_keyword FFTWrappers.rfft2_sig = false ->
  existsb (String.eqb "axis") (params FFTWrappers.rfft2_sig) = false ->
  FFTWrappers.RealFFT2_forward self x =
    Raise (TypeError (fn_name FFTWrappers.rfft2_sig
                      ++ "() got an unexpected keyword argument 'axis'")).
Proof.
  intros Hv Ha. unfold FFTWrappers.RealFFT2_forward, bind_keywords, unexpected_keyword.
  cbn [find]. now rewrite Ha, Hv.
Qed.

Lemma RealFFT2_forward_axis_refused_witness :
  var_keyword (@FFTWrappers.rfft2_sig ReferenceMore.zero_rfft) = false /\
  existsb (String.eqb "axis")
    (params (@FFTWrappers.rfft2_sig ReferenceMore.zero_rfft)) = false /\
  @FFTWrappers.RealFFT2_forward ReferenceMore.zero_rfft
    (Reference.retag_forward 8 8 4 3) ReferenceMore.ones_1_8_8
  = Raise (TypeError "rfft2() got an unexpected keyword argument 'axis'").
Proof.
  split; [reflexivity |]. split; [reflexivity |].
  apply (@RealFFT2_forward_axis_refused ReferenceMore.zero_rfft
           (Reference.retag_forward 8 8 4 3) ReferenceMore.ones_1_8_8); reflexivity.
Defined.

(** X12. The two wrappers built from the same arguments agree on every
    attribute; [lmax] and [mmax] given as [None] or 0 fall back to [nlat]
    and [nlon // 2 + 1]; [mmax] is never 0, and [lmax] is 0 only on a grid
    without latitudes. *)
Theorem FFT_wrappers_modes `{F : FFT} (n_lat n_lon : nat) (l m : option nat) :
  let f := RealFFT2 n_lat n_lon l m in
  let i := InverseRealFFT2 n_lat n_lon l m in
  (nlat f = nlat i /\ nlon f = nlon i /\ lmax f = lmax i /\ mmax f = mmax i) /\
  (l = None \/ l = Some 0%nat -> lmax f = n_lat) /\
  (m = None \/ m = Some 0%nat -> mmax f = (n_lon / 2 + 1)%nat) /\
  (forall k, k <> 0%nat -> l = Some k -> lmax f = k) /\
  (forall k, k <> 0%nat -> m = Some k -> mmax f = k) /\
  mmax f <> 0%nat /\
  (lmax f = 0%nat -> n_lat = 0%nat).
Proof.
  intros f i. unfold f, i, RealFFT2, InverseRealFFT2. cbn [nlat nlon lmax mmax].
  split; [repeat split |].
  split. { intros [-> | ->]; reflexivity. }
  split. { intros [-> | ->]; reflexivity. }
  split. { intros k Hk ->. destruct k; [contradiction | reflexivity]. }
  split. { intros k Hk ->. destruct k; [contradiction | reflexivity]. }
  split.
  - destruct m as [[| k] |]; cbn [or_int]; lia.
  - destruct l as [[| k] |]; cbn [or_int]; intro E; try exact E. discriminate E.
Qed.

(** ** Spectral convolution: what construction depends on *)

(** The constructor after its [super] call and its two assertions, which
    compare attributes of the inverse transform with themselves. *)
Lemma SpectralConvS2_init_steps (a : SpectralConvS2.Args) (draw : list nat -> C) :
  SpectralConvS2.init a draw =
    (d <- SpectralConvS2.dispatch (SpectralConvS2.arg_operator_type a)
            [SpectralConvS2.out_channels a; SpectralConvS2.in_channels a]
            (lmax (SpectralConvS2.arg_inverse_transform a))
            (mmax (SpectralConvS2.arg_inverse_transform a)) ;;
     scale <- SpectralConvS2.weight_scale (SpectralConvS2.gain a)
                (SpectralConvS2.in_channels a)
                (lmax (SpectralConvS2.arg_inverse_transform a)) ;;
     weight_tensor <- broadcast_op Rmult float32 scale
                        (as_real (SpectralConvS2.randn (fst d) draw)) ;;
     Ok {| SpectralConvS2.forward_transform := SpectralConvS2.arg_forward_transform a;
           SpectralConvS2.inverse_transform := SpectralConvS2.arg_inverse_transform a;
           SpectralConvS2.modes_lat := lmax (SpectralConvS2.arg_inverse_transform a);
           SpectralConvS2.modes_lon := mmax (SpectralConvS2.arg_inverse_transform a);
           SpectralConvS2.scale_residual :=
             negb (nlat (SpectralConvS2.arg_forward_transform a)
                   =? nlat (SpectralConvS2.arg_inverse_transform a))%nat
             || negb (nlon (SpectralConvS2.arg_forward_transform a)
                      =? nlon (SpectralConvS2.arg_inverse_transform a))%nat;
           SpectralConvS2.operator_type := SpectralConvS2.arg_operator_type a;
           SpectralConvS2.weight := weight_tensor;
           SpectralConvS2._contract := snd d;
           SpectralConvS2.bias :=
             if SpectralConvS2.arg_bias a
             then Some (full [1; SpectralConvS2.out_channels a; 1; 1]%nat 0)
             else None |}).
Proof.
  unfold SpectralConvS2.init.
  cbn [Py.bind py_super isinstance existsb mro mro_fuel base PyClass_eqb orb Ok].
  rewrite !Nat.eqb_refl. cbn [py_assert Py.bind Ok].
  destruct (SpectralConvS2.dispatch _ _ _ _) as [e | [ws c]]; reflexivity.
Qed.

Lemma SpectralConvS2_dispatch_cases (op : string) (ws : list nat) (lat lon : nat) :
  known_operator_type op ->
  exists shape c,
    SpectralConvS2.dispatch op ws lat lon = Ok (shape, c) /\
    (op = "diagonal" -> shape = (ws ++ [lat; lon])%list /\ c = contract_diagonal) /\
    (op = "block-diagonal" ->
       shape = (ws ++ [lat; lon; lon])%list /\ c = contract_blockdiag) /\
    (op = "driscoll-healy" -> shape = (ws ++ [lat])%list /\ c = contract_dhconv).
Proof.
  intros [-> | [-> | ->]]; eexists; eexists; (split; [reflexivity |]);
    (split; [| split]); intro E; try discriminate E; split; reflexivity.
Qed.

Lemma dispatch_raises_no_assertion (op : string) (ws : list nat) (lat lon : nat)
    (e : PyExc) :
  SpectralConvS2.dispatch op ws lat lon = Raise e ->
  forall msg, e <> AssertionError msg.
Proof.
  unfold SpectralConvS2.dispatch.
  destruct (op =? "diagonal"); [discriminate |].
  destruct (op =? "block-diagonal"); [discriminate |].
  destruct (op =? "driscoll-healy"); [discriminate |].
  intros He msg. injection He as <-. discriminate.
Qed.

Lemma weight_scale_raises_no_assertion (gain : R) (in_channels modes_lat : nat)
    (e : PyExc) :
  SpectralConvS2.weight_scale gain in_channels modes_lat = Raise e ->
  forall msg, e <> AssertionError msg.
Proof.
  unfold SpectralConvS2.weight_scale, float_div, math_sqrt.
  destruct (Reqb _ 0); cbn [Py.bind Ok Raise].
  { intros He msg. injection He as <-. discriminate. }
  destruct (Rltb _ 0); cbn [Py.bind Ok Raise].
  { intros He msg. injection He as <-. discriminate. }
  destruct (Rltb 2 0); cbn [Py.bind Ok Raise].
  { intros He msg. injection He as <-. discriminate. }
  destruct (modes_lat =? 0)%nat; [| discriminate].
  intros He msg. injection He as <-. discriminate.
Qed.

Lemma broadcast_op_raises_no_assertion {V W X} (f : V -> W -> X) (d : DType)
    (t1 : Tensor V) (t2 : Tensor W) (e : PyExc) :
  broadcast_op f d t1 t2 = Raise e -> forall msg, e <> AssertionError msg.
Proof.
  unfold broadcast_op. destruct (broadcast_shapes _ _); [discriminate |].
  intros He msg. injection He as <-. discriminate.
Qed.

(** X13. Construction of [SpectralConvS2] never raises [AssertionError]: the
    two assertions compare [lmax] and [mmax] of the inverse transform with
    the values just read from it.  The forward transform plays no part in
    whether construction succeeds, so a forward transform whose truncation
    or grid differs from the inverse's is accepted. *)
Theorem SpectralConvS2_init_ignores_forward_transform
    (a : SpectralConvS2.Args) (draw : list nat -> C) (other : Transform R C) :
  (forall msg, SpectralConvS2.init a draw <> Raise (AssertionError msg)) /\
  (returns (SpectralConvS2.init a draw) <->
   returns (SpectralConvS2.init
              (SpectralConvS2.mkArgs other (SpectralConvS2.arg_inverse_transform a)
                 (SpectralConvS2.in_channels a) (SpectralConvS2.out_channels a)
                 (SpectralConvS2.gain a) (SpectralConvS2.arg_operator_type a)
                 (SpectralConvS2.lr_scale_exponent a) (SpectralConvS2.arg_bias a))
              draw)).
Proof.
  rewrite !SpectralConvS2_init_steps.
  cbn [SpectralConvS2.arg_forward_transform SpectralConvS2.arg_inverse_transform
       SpectralConvS2.in_channels SpectralConvS2.out_channels SpectralConvS2.gain
       SpectralConvS2.arg_operator_type SpectralConvS2.arg_bias].
  destruct (SpectralConvS2.dispatch _ _ _ _) as [e | d] eqn:Hd; cbn [Py.bind Ok].
  { split; [| tauto]. intros msg Hm. injection Hm as ->.
    eapply dispatch_raises_no_assertion; [exact Hd | reflexivity]. }
  destruct (SpectralConvS2.weight_scale _ _ _) as [e | scale] eqn:Hs; cbn [Py.bind Ok].
  { split; [| tauto]. intros msg Hm. injection Hm as ->.
    eapply weight_scale_raises_no_assertion; [exact Hs | reflexivity]. }
  destruct (broadcast_op _ _ _ _) as [e | w] eqn:Hw; cbn [Py.bind Ok].
  { split; [| tauto]. intros msg Hm. injection Hm as ->.
    eapply broadcast_op_raises_no_assertion; [exact Hw | reflexivity]. }
  split; [intros msg Hm; discriminate Hm | cbn [returns]; tauto].
Qed.

(** X14. For a known operator type, zero input channels raise
    [ZeroDivisionError] (the gain is divided by [in_channels]) and, with
    input channels, a negative gain raises the [ValueError] of
    [math.sqrt]. *)
Theorem SpectralConvS2_init_scale_errors (a : SpectralConvS2.Args) (draw : list nat -> C) :
  known_operator_type (SpectralConvS2.arg_operator_type a) ->
  (SpectralConvS2.in_channels a = 0%nat ->
   SpectralConvS2.init a draw = Raise (ZeroDivisionError "float division by zero")) /\
  (SpectralConvS2.in_channels a <> 0%nat -> SpectralConvS2.gain a < 0 ->
   SpectralConvS2.init a draw = Raise (ValueError "math domain error")).
Proof.
  intro Hk. rewrite SpectralConvS2_init_steps.
  destruct (SpectralConvS2_dispatch_cases
              [SpectralConvS2.out_channels a; SpectralConvS2.in_channels a]
              (lmax (SpectralConvS2.arg_inverse_transform a))
              (mmax (SpectralConvS2.arg_inverse_transform a)) Hk) as (ws & c & -> & _).
  cbn [Py.bind Ok]. unfold SpectralConvS2.weight_scale. split.
  - intro Hin. rewrite Hin. cbn [INR]. now rewrite float_div_zero.
  - intros Hin Hg. pose proof (INR_pos_of_nonzero Hin) as Hpos.
    rewrite float_div_ok by lra. cbn [Py.bind Ok].
    unfold math_sqrt. rewrite Rltb_true; [reflexivity |].
    apply Rmult_neg_pos; [exact Hg | now apply Rinv_0_lt_compat].
Qed.

Lemma SpectralConvS2_init_scale_errors_witness :
  known_operator_type
    (SpectralConvS2.arg_operator_type
       (SpectralConvS2.mkArgs (Reference.retag_forward 2 4 2 3)
          (Reference.retag_inverse 2 4 2 3) 0 1 2 "diagonal" 0 false)) /\
  SpectralConvS2.init
    (SpectralConvS2.mkArgs (Reference.retag_forward 2 4 2 3)
       (Reference.retag_inverse 2 4 2 3) 0 1 2 "diagonal" 0 false)
    (fun _ => (1, 0))
  = Raise (ZeroDivisionError "float division by zero").
Proof.
  assert (Hk : known_operator_type "diagonal") by (left; reflexivity).
  split; [exact Hk |].
  exact (proj1 (@SpectralConvS2_init_scale_errors
                  (SpectralConvS2.mkArgs (Reference.retag_forward 2 4 2 3)
                     (Reference.retag_inverse 2 4 2 3) 0 1 2 "diagonal" 0 false)
                  (fun _ => (1, 0)) Hk) eq_refl).
Defined.

(** ** Spectral convolution: the three operator types *)

(** The scale tensor of shape [(lat, 2)] against a real view whose last two
    axes are [(m, 2)]. *)
Lemma broadcast_scale_against (lat m : nat) (pre : list nat) :
  broadcast_shapes [lat; 2%nat] (pre ++ [m; 2%nat])%list =
    if (lat =? m)%nat then Some (pre ++ [lat; 2%nat])%list
    else if (lat =? 1)%nat then Some (pre ++ [m; 2%nat])%list
    else if (m =? 1)%nat then Some (pre ++ [lat; 2%nat])%list
    else None.
Proof.
  unfold broadcast_shapes. rewrite rev_app_distr. cbn [rev app broadcast_rev Nat.eqb].
  destruct (lat =? m)%nat; [| destruct (lat =? 1)%nat; [| destruct (m =? 1)%nat]];
    cbn [option_map rev app]; try reflexivity;
    rewrite rev_involutive, <- app_assoc; reflexivity.
Qed.

Lemma project_last2 (d e i j : nat) (pre : list nat) :
  project [d; e] (pre ++ [i; j])%list =
    [if (d =? 1)%nat then 0%nat else i; if (e =? 1)%nat then 0%nat else j].
Proof. unfold project. rewrite rev_app_distr. reflexivity. Qed.

(** What a layer constructed with the Driscoll-Healy operator holds. *)
Lemma SpectralConvS2_dh_fields (a : SpectralConvS2.Args) (draw : list nat -> C)
    (self : SpectralConvS2.t) :
  SpectralConvS2.arg_operator_type a = "driscoll-healy" ->
  SpectralConvS2.init a draw = Ok self ->
  shape (SpectralConvS2.weight self) =
    [SpectralConvS2.out_channels a; SpectralConvS2.in_channels a;
     lmax (SpectralConvS2.arg_inverse_transform a); 2%nat] /\
  dtype (SpectralConvS2.weight self) = float32 /\
  SpectralConvS2._contract self = contract_dhconv /\
  SpectralConvS2.modes_lat self = lmax (SpectralConvS2.arg_inverse_transform a) /\
  SpectralConvS2.modes_lon self = mmax (SpectralConvS2.arg_inverse_transform a) /\
  SpectralConvS2.bias self =
    (if SpectralConvS2.arg_bias a
     then Some (full [1; SpectralConvS2.out_channels a; 1; 1]%nat 0) else None).
Proof.
  intros Hop Hinit. rewrite SpectralConvS2_init_steps, Hop in Hinit.
  cbn [SpectralConvS2.dispatch String.eqb Ascii.eqb Bool.eqb andb Py.bind Ok fst snd]
    in Hinit.
  bind_inv Hinit. bind_inv Hinit. injection Hinit as <-.
  apply weight_scale_inv in Hv as (_ & _ & _ & ->).
  unfold broadcast_op in Hv0.
  cbn [shape SpectralConvS2.imul_row0 tmap full as_real SpectralConvS2.randn app] in Hv0.
  pose proof (broadcast_shapes_suffix
                [lmax (SpectralConvS2.arg_inverse_transform a); 2%nat]
                [SpectralConvS2.out_channels a; SpectralConvS2.in_channels a]) as Hb.
  cbn [app] in Hb. rewrite Hb in Hv0. injection Hv0 as <-.
  repeat split.
Qed.

(** X15. With the Driscoll-Healy operator and an inverse transform with at
    least one latitude mode, construction returns exactly when there is an
    input channel and the gain is not negative; the layer then holds a
    float32 weight of shape [(out_channels, in_channels, modes_lat, 2)],
    the Driscoll-Healy contraction, the modes of the inverse transform, and
    a zero bias of shape [(1, out_channels, 1, 1)] when one is asked for. *)
Theorem SpectralConvS2_dh_construction (a : SpectralConvS2.Args) (draw : list nat -> C) :
  SpectralConvS2.arg_operator_type a = "driscoll-healy" ->
  lmax (SpectralConvS2.arg_inverse_transform a) <> 0%nat ->
  (returns (SpectralConvS2.init a draw) <->
   SpectralConvS2.in_channels a <> 0%nat /\ 0 <= SpectralConvS2.gain a) /\
  (forall self, SpectralConvS2.init a draw = Ok self ->
     shape (SpectralConvS2.weight self) =
       [SpectralConvS2.out_channels a; SpectralConvS2.in_channels a;
        lmax (SpectralConvS2.arg_inverse_transform a); 2%nat] /\
     dtype (SpectralConvS2.weight self) = float32 /\
     SpectralConvS2._contract self = contract_dhconv /\
     SpectralConvS2.modes_lat self = lmax (SpectralConvS2.arg_inverse_transform a) /\
     SpectralConvS2.modes_lon self = mmax (SpectralConvS2.arg_inverse_transform a) /\
     SpectralConvS2.bias self =
       if SpectralConvS2.arg_bias a
       then Some (full [1; SpectralConvS2.out_channels a; 1; 1]%nat 0) else None).
Proof.
  intros Hop Hl. split.
  - split.
    + intro Hret. destruct (SpectralConvS2.init a draw) as [e | self] eqn:Hinit;
        [destruct Hret |].
      destruct (SpectralConvS2_init_fields _ _ Hinit)
        as (_ & _ & _ & _ & _ & ws & k & scale & _ & Hs & _).
      apply weight_scale_inv in Hs as (Hin & Hq & _ & _).
      split; [exact Hin |].
      pose proof (INR_pos_of_nonzero Hin) as Hpos.
      replace (SpectralConvS2.gain a)
        with (SpectralConvS2.gain a / INR (SpectralConvS2.in_channels a)
              * INR (SpectralConvS2.in_channels a)) by (field; lra).
      apply Rmult_le_pos; lra.
    + intros [Hin Hg].
      destruct (SpectralConvS2_init_dh_returns a draw Hop Hin Hg Hl) as [w ->].
      exact I.
  - intros self Hinit. exact (SpectralConvS2_dh_fields a draw Hop Hinit).
Qed.

(** X16. With the diagonal or the block-diagonal operator the scale tensor,
    of shape [(modes_lat, 2)], is multiplied against a draw whose last axes
    are [(modes_lon, 2)].  For valid channels, gain and [modes_lat],
    construction returns exactly when [modes_lat = modes_lon] or one of the
    two is 1, and otherwise raises the broadcast [ValueError]. *)
Theorem SpectralConvS2_diagonal_construction (a : SpectralConvS2.Args)
    (draw : list nat -> C) :
  SpectralConvS2.arg_operator_type a = "diagonal"
  \/ SpectralConvS2.arg_operator_type a = "block-diagonal" ->
  SpectralConvS2.in_channels a <> 0%nat ->
  0 <= SpectralConvS2.gain a ->
  lmax (SpectralConvS2.arg_inverse_transform a) <> 0%nat ->
  let lat := lmax (SpectralConvS2.arg_inverse_transform a) in
  let lon := mmax (SpectralConvS2.arg_inverse_transform a) in
  (returns (SpectralConvS2.init a draw) <-> lat = lon \/ lat = 1%nat \/ lon = 1%nat) /\
  (~ (lat = lon \/ lat = 1%nat \/ lon = 1%nat) ->
   SpectralConvS2.init a draw = Raise (ValueError "Broadcast dimension mismatch")).
Proof.
  intros Hop Hin Hg Hl lat lon.
  assert (Hshape : exists pre k,
            SpectralConvS2.dispatch (SpectralConvS2.arg_operator_type a)
              [SpectralConvS2.out_channels a; SpectralConvS2.in_channels a] lat lon
            = Ok ((pre ++ [lon])%list, k)).
  { destruct Hop as [-> | ->].
    - exists [SpectralConvS2.out_channels a; SpectralConvS2.in_channels a; lat],
        contract_diagonal. reflexivity.
    - exists [SpectralConvS2.out_channels a; SpectralConvS2.in_channels a; lat; lon],
        contract_blockdiag. reflexivity. }
  destruct Hshape as (pre & k & Hd).
  pose proof (weight_scale_ok Hin Hg Hl) as Hws. fold lat in Hws.
  rewrite SpectralConvS2_init_steps. fold lat lon. rewrite Hd. cbn [Py.bind Ok fst snd].
  rewrite Hws. cbn [Py.bind Ok].
  unfold broadcast_op.
  cbn [shape SpectralConvS2.imul_row0 tmap full as_real SpectralConvS2.randn].
  rewrite <- app_assoc. cbn [app]. rewrite broadcast_scale_against.
  destruct (Nat.eqb_spec lat lon) as [E | N].
  { split; [split; [intros _; now left | intros _; exact I] |].
    intro Hn. exfalso. apply Hn. now left. }
  destruct (Nat.eqb_spec lat 1) as [E1 | N1].
  { split; [split; [intros _; right; now left | intros _; exact I] |].
    intro Hn. exfalso. apply Hn. right. now left. }
  destruct (Nat.eqb_spec lon 1) as [E2 | N2].
  { split; [split; [intros _; right; now right | intros _; exact I] |].
    intro Hn. exfalso. apply Hn. right. now right. }
  split; [| reflexivity].
  split; [intros [] | intros [E | [E | E]]; contradiction].
Qed.

(** X17. With the diagonal operator on [modes_lat = modes_lon], every weight
    entry [(o, i, l, m)] is the drawn entry times [sqrt(gain / in_channels)],
    times [sqrt 2] when the longitudinal mode [m] is 0: the zeroth row of
    the scale tensor meets the last mode axis of the weight, so the factor
    follows [m], and the latitude mode [l] has no effect on it. *)
Theorem SpectralConvS2_diagonal_weight_entry (a : SpectralConvS2.Args)
    (draw : list nat -> C) (self : SpectralConvS2.t) :
  SpectralConvS2.init a draw = Ok self ->
  SpectralConvS2.arg_operator_type a = "diagonal" ->
  lmax (SpectralConvS2.arg_inverse_transform a)
    = mmax (SpectralConvS2.arg_inverse_transform a) ->
  forall o i l m c : nat,
    (o < SpectralConvS2.out_channels a)%nat ->
    (i < SpectralConvS2.in_channels a)%nat ->
    (l < lmax (SpectralConvS2.arg_inverse_transform a))%nat ->
    (m < mmax (SpectralConvS2.arg_inverse_transform a))%nat ->
    (c < 2)%nat ->
    elem (SpectralConvS2.weight self) [o; i; l; m; c] =
      (if (m =? 0)%nat then sqrt 2 else 1)
      * sqrt (SpectralConvS2.gain a / INR (SpectralConvS2.in_channels a))
      * part c (draw [o; i; l; m]).
Proof.
  intros Hinit Hop Heq o i l m c Ho Hi Hl Hm Hc.
  rewrite SpectralConvS2_init_steps, Hop in Hinit.
  cbn [SpectralConvS2.dispatch String.eqb Ascii.eqb Bool.eqb andb Py.bind Ok fst snd]
    in Hinit.
  bind_inv Hinit. bind_inv Hinit. injection Hinit as <-.
  apply weight_scale_inv in Hv as (_ & _ & _ & ->).
  unfold broadcast_op in Hv0.
  cbn [shape SpectralConvS2.imul_row0 tmap full as_real SpectralConvS2.randn app] in Hv0.
  pose proof (broadcast_scale_against
                (lmax (SpectralConvS2.arg_inverse_transform a))
                (mmax (SpectralConvS2.arg_inverse_transform a))
                [SpectralConvS2.out_channels a; SpectralConvS2.in_channels a;
                 lmax (SpectralConvS2.arg_inverse_transform a)]) as Hb.
  cbn [app] in Hb. rewrite Hb in Hv0.
  apply Nat.eqb_eq in Heq as Heqb. rewrite Heqb in Hv0. injection Hv0 as <-.
  cbn [elem SpectralConvS2.weight].
  rewrite (project_last2 _ _ m c [o; i; l]).
  rewrite project_valid
    by (constructor; [exact Ho | constructor; [exact Hi | constructor; [exact Hl |
        constructor; [exact Hm | constructor; [exact Hc | constructor]]]]]).
  cbn [Nat.eqb removelast last].
  assert (Hm' : (if (lmax (SpectralConvS2.arg_inverse_transform a) =? 1)%nat
                 then 0%nat else m) = m).
  { destruct (Nat.eqb_spec (lmax (SpectralConvS2.arg_inverse_transform a)) 1); lia. }
  rewrite Hm'. destruct m; simpl; ring.
Qed.

Lemma diagonal_square_args_return (draw : list nat -> C) :
  exists self,
    SpectralConvS2.init
      (SpectralConvS2.mkArgs (Reference.retag_forward 3 4 3 3)
         (Reference.retag_inverse 3 4 3 3) 1 1 2 "diagonal" 0 false) draw = Ok self.
Proof.
  rewrite SpectralConvS2_init_steps.
  cbn [SpectralConvS2.dispatch SpectralConvS2.arg_operator_type String.eqb Ascii.eqb
       Bool.eqb andb Py.bind Ok fst snd].
  rewrite weight_scale_ok by (simpl; try discriminate; lra).
  eexists. reflexivity.
Qed.

Lemma SpectralConvS2_dh_construction_witness :
  SpectralConvS2.arg_operator_type (Reference.conv_args "driscoll-healy")
    = "driscoll-healy" /\
  returns (SpectralConvS2.init (Reference.conv_args "driscoll-healy") (fun _ => (1, 0))).
Proof.
  split; [reflexivity |].
  apply (proj1 (@SpectralConvS2_dh_construction (Reference.conv_args "driscoll-healy")
                  (fun _ => (1, 0)) eq_refl ltac:(simpl; discriminate))).
  split; simpl; [discriminate | lra].
Defined.

Lemma SpectralConvS2_diagonal_construction_witness :
  SpectralConvS2.arg_operator_type (Reference.conv_args "diagonal") = "diagonal" /\
  SpectralConvS2.init (Reference.conv_args "diagonal") (fun _ => (1, 0))
    = Raise (ValueError "Broadcast dimension mismatch").
Proof.
  split; [reflexivity |].
  apply (proj2 (@SpectralConvS2_diagonal_construction (Reference.conv_args "diagonal")
                  (fun _ => (1, 0)) (or_introl eq_refl)
                  ltac:(simpl; discriminate) ltac:(simpl; lra)
                  ltac:(simpl; discriminate))).
  simpl. intros [E | [E | E]]; discriminate E.
Defined.

Lemma SpectralConvS2_diagonal_weight_entry_witness :
  exists self,
    SpectralConvS2.init
      (SpectralConvS2.mkArgs (Reference.retag_forward 3 4 3 3)
         (Reference.retag_inverse 3 4 3 3) 1 1 2 "diagonal" 0 false)
      (fun _ => (1, 0)) = Ok self /\
    elem (SpectralConvS2.weight self) [0; 0; 2; 0; 0]%nat
      = sqrt 2 * sqrt (2 / INR 1) * 1.
Proof.
  destruct (diagonal_square_args_return (fun _ => (1, 0))) as [self Hself].
  exists self. split; [exact Hself |].
  exact (@SpectralConvS2_diagonal_weight_entry _ _ self Hself eq_refl eq_refl
           0%nat 0%nat 2%nat 0%nat 0%nat
           ltac:(simpl; lia) ltac:(simpl; lia) ltac:(simpl; lia) ltac:(simpl; lia)
           ltac:(lia)).
Defined.

(** ** Spectral convolution: the forward pass and the FFT wrappers *)

Section ForwardDtypes.

Context `{Prec : Precision} `{Contr : Contractions}.

(** X18. Whatever the dtype of the input, a forward pass that returns gives
    an output of the dtype of the input; the residual is not cast back: on
    equal resolutions it is float32. *)
Theorem SpectralConvS2_forward_dtypes (self : SpectralConvS2.t) (x out res : Tensor R) :
  SpectralConvS2.forward self x = Ok (out, res) ->
  dtype out = dtype x /\
  (SpectralConvS2.scale_residual self = false -> dtype res = float32).
Proof.
  unfold SpectralConvS2.forward. intro Hf.
  bind_inv Hf. bind_inv Hf. injection Hf as <- <-. split; [reflexivity |].
  intro Hflag. rewrite Hflag. reflexivity.
Qed.

End ForwardDtypes.

Lemma SpectralConvS2_forward_dtypes_witness :
  exists self out res,
    @SpectralConvS2.forward Reference.exact_precision Reference.passthrough_contractions
      self Reference.ones64 = Ok (out, res) /\
    dtype out = float64 /\ dtype res = float32.
Proof.
  destruct (conv_args_returns (fun _ => (1, 0))) as [w _].
  set (self := {| SpectralConvS2.forward_transform := Reference.retag_forward 2 4 2 3;
                  SpectralConvS2.inverse_transform := Reference.retag_inverse 2 4 2 3;
                  SpectralConvS2.modes_lat := 2;
                  SpectralConvS2.modes_lon := 3;
                  SpectralConvS2.scale_residual := false;
                  SpectralConvS2.operator_type := "driscoll-healy";
                  SpectralConvS2.weight := w;
                  SpectralConvS2._contract := contract_dhconv;
                  SpectralConvS2.bias := None |}).
  assert (Hex : exists out res,
            @SpectralConvS2.forward Reference.exact_precision
              Reference.passthrough_contractions self Reference.ones64 = Ok (out, res))
    by (eexists; eexists; reflexivity).
  destruct Hex as (out & res & Hf).
  exists self, out, res. split; [exact Hf |].
  destruct (@SpectralConvS2_forward_dtypes Reference.exact_precision
              Reference.passthrough_contractions self Reference.ones64 out res Hf)
    as [Hout Hres].
  split; [exact Hout | apply Hres; reflexivity].
Defined.

(** X19. Over the two FFT wrappers built on one grid with the default
    truncation, the Driscoll-Healy operator with an input channel and a
    non-negative gain is constructed: the residual needs no rescaling, the
    modes are [nlat] and [nlon // 2 + 1], and the weight has shape
    [(out_channels, in_channels, nlat, 2)]. *)
Theorem SpectralConvS2_over_FFT_wrappers `{F : FFT} (n_lat n_lon c_in c_out : nat)
    (gain : R) (bias : bool) (draw : list nat -> C) :
  n_lat <> 0%nat -> c_in <> 0%nat -> 0 <= gain ->
  exists self,
    SpectralConvS2.init
      (SpectralConvS2.mkArgs (RealFFT2 n_lat n_lon None None)
         (InverseRealFFT2 n_lat n_lon None None)
         c_in c_out gain "driscoll-healy" 0 bias) draw = Ok self /\
    SpectralConvS2.scale_residual self = false /\
    SpectralConvS2.modes_lat self = n_lat /\
    SpectralConvS2.modes_lon self = (n_lon / 2 + 1)%nat /\
    shape (SpectralConvS2.weight self) = [c_out; c_in; n_lat; 2%nat].
Proof.
  intros Hn Hin Hg.
  set (a := SpectralConvS2.mkArgs (RealFFT2 n_lat n_lon None None)
              (InverseRealFFT2 n_lat n_lon None None)
              c_in c_out gain "driscoll-healy" 0 bias).
  destruct (SpectralConvS2_init_dh_returns a draw eq_refl Hin Hg Hn) as [w Hw].
  eexists. split; [exact Hw |].
  destruct (SpectralConvS2_dh_fields a draw eq_refl Hw) as (Hshape & _).
  cbn [SpectralConvS2.scale_residual SpectralConvS2.modes_lat SpectralConvS2.modes_lon].
  cbn [a SpectralConvS2.arg_forward_transform SpectralConvS2.arg_inverse_transform
       RealFFT2 InverseRealFFT2 nlat nlon lmax mmax or_int].
  rewrite !Nat.eqb_refl. repeat split. exact Hshape.
Qed.

Lemma SpectralConvS2_over_FFT_wrappers_witness :
  exists self,
    SpectralConvS2.init
      (SpectralConvS2.mkArgs
         (@RealFFT2 ReferenceMore.retag_fft 16 32 None None)
         (@InverseRealFFT2 ReferenceMore.retag_fft 16 32 None None)
         2 2 2 "driscoll-healy" 0 false) (fun _ => (1, 0)) = Ok self /\
    shape (SpectralConvS2.weight self) = [2; 2; 16; 2]%nat.
Proof.
  destruct (@SpectralConvS2_over_FFT_wrappers ReferenceMore.retag_fft 16 32 2 2 2 false
              (fun _ => (1, 0)) ltac:(discriminate) ltac:(discriminate) ltac:(lra))
    as (self & Hself & _ & _ & _ & Hshape).
  exists self. split; [exact Hself | exact Hshape].
Defined.

(** ** The factorization name *)

Lemma lower_Complex_prefix (s : string) :
  startswith (lower ("Complex" ++ s)) "complex" = true.
Proof. destruct s; reflexivity. Qed.

(** X20. The factorization name handed to the factorized tensor always
    starts with "complex" once lowered: [None] gives ["ComplexDense"], a name
    already starting with "complex" in any case is kept, and any other name
    gets the prefix ["Complex"]; applying the rule twice changes nothing. *)
Theorem complex_factorization_prefix (f : option string) :
  startswith (lower (FactorizationName.complex_factorization f)) "complex" = true /\
  FactorizationName.complex_factorization None = "ComplexDense" /\
  (forall s, f = Some s -> startswith (lower s) "complex" = true ->
     FactorizationName.complex_factorization f = s) /\
  (forall s, f = Some s -> startswith (lower s) "complex" = false ->
     FactorizationName.complex_factorization f = "Complex" ++ s) /\
  FactorizationName.complex_factorization
    (Some (FactorizationName.complex_factorization f))
    = FactorizationName.complex_factorization f.
Proof.
  assert (Hpre : forall g,
            startswith (lower (FactorizationName.complex_factorization g)) "complex"
            = true).
  { intro g. unfold FactorizationName.complex_factorization.
    destruct (startswith (lower match g with Some s => s | None => "Dense" end) "complex")
      eqn:E; cbn [negb].
    - exact E.
    - apply lower_Complex_prefix. }
  split; [apply Hpre |]. split; [reflexivity |].
  split; [| split].
  - intros s -> Hs. unfold FactorizationName.complex_factorization. now rewrite Hs.
  - intros s -> Hs. unfold FactorizationName.complex_factorization. now rewrite Hs.
  - unfold FactorizationName.complex_factorization at 1. now rewrite Hpre.
Qed.

(** ** Gaussian random field: the table of square-root eigenvalues *)

Section RandomFieldTable.

Context `{FP : FloatPow} `{Sht : GaussianRandomFieldS2.SHT} `{Prec : Precision}.

Import GaussianRandomFieldS2.

(** X21. The table a constructed sampler holds has shape
    [(1, nlat, nlat + 1)]; its entry for degree 0 and order 0 is exactly
    zero; every entry above the diagonal (order greater than degree) is
    zero; and every other entry of degree [j] is
    [sigma * (j (j + 1) / radius ** 2 + tau ** 2) ** (-alpha / 2)], the same
    for all orders. *)
Theorem GRF_sqrt_eig_table (a : Args) (self : t) :
  init a = Ok self ->
  let s := match sigma a with
           | Some s => s
           | None => float_pow (tau a) (0.5 * (2 * alpha a - 2))
           end in
  shape (sqrt_eig self) = [1%nat; arg_nlat a; (arg_nlat a + 1)%nat] /\
  elem (sqrt_eig self) [0; 0; 0]%nat = 0 /\
  (forall j m, (j < m)%nat -> elem (sqrt_eig self) [0%nat; j; m] = 0) /\
  (forall j m, (m <= j)%nat -> j <> 0%nat ->
     elem (sqrt_eig self) [0%nat; j; m] =
       s * float_pow (INR (j * (j + 1)) / float_pow (radius a) 2 + float_pow (tau a) 2)
             (- alpha a / 2)).
Proof.
  intros Hinit s. exact (GRF_table_entries _ _ _ _ _ (GRF_init_table a Hinit)).
Qed.

(** X22. For positive [tau], [radius], [alpha] and scale, the kept entries
    of the table of degree at least 1 are positive and strictly decrease
    with the degree: higher modes are damped more. *)
Theorem GRF_sqrt_eig_decay (a : Args) (self : t) (j m : nat) :
  init a = Ok self ->
  0 < tau a -> 0 < radius a -> 0 < alpha a ->
  0 < match sigma a with
      | Some s => s
      | None => float_pow (tau a) (0.5 * (2 * alpha a - 2))
      end ->
  (1 <= j)%nat -> (m <= j)%nat -> (S j < arg_nlat a)%nat ->
  0 < elem (sqrt_eig self) [0%nat; S j; m] < elem (sqrt_eig self) [0%nat; j; m].
Proof.
  intros Hinit Htau Hrad Halpha Hs Hj Hm _.
  destruct (GRF_table_entries _ _ _ _ _ (GRF_init_table a Hinit)) as (_ & _ & _ & Hentry).
  rewrite (Hentry (S j) m) by lia. rewrite (Hentry j m) by lia.
  set (s := match sigma a with
            | Some s => s
            | None => float_pow (tau a) (0.5 * (2 * alpha a - 2))
            end) in *.
  rewrite (@float_pow_pos _ (radius a) 2 Hrad), (@float_pow_pos _ (tau a) 2 Htau).
  assert (HR : 0 < Rpower (radius a) 2) by apply exp_pos.
  assert (HT : 0 < Rpower (tau a) 2) by apply exp_pos.
  assert (Hbase : forall k : nat,
            0 < INR (k * (k + 1)) / Rpower (radius a) 2 + Rpower (tau a) 2).
  { intro k. pose proof (pos_INR (k * (k + 1))) as Hk.
    apply Rplus_le_lt_0_compat; [| exact HT].
    apply Rmult_le_pos; [exact Hk | left; now apply Rinv_0_lt_compat]. }
  rewrite !float_pow_pos by apply Hbase.
  replace (- alpha a / 2) with (- (alpha a / 2)) by lra.
  rewrite !Rpower_Ropp.
  assert (Hlt : INR (j * (j + 1)) / Rpower (radius a) 2 + Rpower (tau a) 2
                < INR (S j * (S j + 1)) / Rpower (radius a) 2 + Rpower (tau a) 2).
  { apply Rplus_lt_compat_r. apply Rmult_lt_compat_r; [now apply Rinv_0_lt_compat |].
    apply lt_INR. nia. }
  assert (Hpow : Rpower (INR (j * (j + 1)) / Rpower (radius a) 2 + Rpower (tau a) 2)
                   (alpha a / 2)
                 < Rpower (INR (S j * (S j + 1)) / Rpower (radius a) 2 + Rpower (tau a) 2)
                     (alpha a / 2)).
  { apply Rlt_Rpower_l; [lra |]. split; [apply Hbase | exact Hlt]. }
  assert (Hp1 : 0 < Rpower (INR (j * (j + 1)) / Rpower (radius a) 2 + Rpower (tau a) 2)
                      (alpha a / 2)) by apply exp_pos.
  assert (Hp2 : 0 < Rpower (INR (S j * (S j + 1)) / Rpower (radius a) 2
                            + Rpower (tau a) 2) (alpha a / 2)) by apply exp_pos.
  split.
  - apply Rmult_lt_0_compat; [exact Hs | now apply Rinv_0_lt_compat].
  - apply Rmult_lt_compat_l; [exact Hs |].
    apply Rinv_lt_contravar; [now apply Rmult_lt_0_compat | exact Hpow].
Qed.

(** X23. When [sigma] is given, [alpha] is not checked: the constructor
    can only fail in the constructor of the inverse transform, with that
    one's exception, or on an empty table; where the transform builds and
    there is a latitude it returns whatever [alpha] is, values at most 1
    included. *)
Theorem GRF_explicit_sigma_skips_alpha_check (a : Args) (s : R) :
  sigma a = Some s ->
  (forall e, init a = Raise e ->
     isht_check (arg_nlat a) (2 * arg_nlat a) (grid a) "backward" = Raise e
     \/ arg_nlat a = 0%nat) /\
  (isht_check (arg_nlat a) (2 * arg_nlat a) (grid a) "backward" = Ok tt ->
   arg_nlat a <> 0%nat -> returns (init a)).
Proof.
  intro Hs. split.
  - intros e He. exact (GRF_init_given_raises a Hs He).
  - intros Hg Hn. destruct (GRF_init_given_returns a Hs Hg Hn) as (self & -> & _).
    exact I.
Qed.

End RandomFieldTable.

Lemma GRF_sqrt_eig_table_witness :
  exists self,
    @GaussianRandomFieldS2.init Reference.real_power Reference.zero_sht
      Reference.exact_precision Reference.grf_args = Ok self /\
    elem (GaussianRandomFieldS2.sqrt_eig self) [0; 0; 0]%nat = 0.
Proof.
  destruct grf_args_returns as (self & Hinit & _).
  exists self. split; [exact Hinit |].
  exact (proj1 (proj2 (@GRF_sqrt_eig_table Reference.real_power Reference.zero_sht
                         Reference.exact_precision Reference.grf_args self Hinit))).
Defined.

(** [GaussianRandomFieldS2(3)]: degrees 1 and 2 are both rows of the table,
    and the entry of degree 2 is below the one of degree 1. *)
Lemma GRF_sqrt_eig_decay_witness :
  exists self,
    @GaussianRandomFieldS2.init Reference.real_power Reference.zero_sht
      Reference.exact_precision ReferenceMore.grf_args_3 = Ok self /\
    shape (GaussianRandomFieldS2.sqrt_eig self) = [1; 3; 4]%nat /\
    elem (GaussianRandomFieldS2.sqrt_eig self) [0; 2; 1]%nat
      < elem (GaussianRandomFieldS2.sqrt_eig self) [0; 1; 1]%nat.
Proof.
  destruct (grf_default_returns (n := 3) ltac:(lia))
    as (self & Hinit & _ & _ & _ & Hshape & _).
  exists self. split; [exact Hinit |]. split; [exact Hshape |].
  refine (proj2 (@GRF_sqrt_eig_decay Reference.real_power Reference.zero_sht
                   Reference.exact_precision ReferenceMore.grf_args_3 self 1%nat 1%nat
                   Hinit _ _ _ _ (le_n 1) (le_n 1) _)); simpl; try lra; try lia.
  apply exp_pos.
Defined.

Lemma GRF_explicit_sigma_skips_alpha_check_witness :
  GaussianRandomFieldS2.sigma ReferenceMore.grf_args_rough = Some 1 /\
  GaussianRandomFieldS2.alpha ReferenceMore.grf_args_rough <= 1 /\
  returns (@GaussianRandomFieldS2.init Reference.real_power Reference.zero_sht
             Reference.exact_precision ReferenceMore.grf_args_rough).
Proof.
  split; [reflexivity |]. split; [simpl; lra |].
  apply (proj2 (@GRF_explicit_sigma_skips_alpha_check Reference.real_power
                  Reference.zero_sht Reference.exact_precision
                  ReferenceMore.grf_args_rough 1 eq_refl)).
  - reflexivity.
  - simpl. discriminate.
Defined.

(** ** Gaussian random field: explicit noise, and moving the object *)

Lemma broadcast_batch_against_table (b n k : nat) :
  broadcast_shapes [b; n; k] [1%nat; n; k] = Some [b; n; k].
Proof.
  unfold broadcast_shapes. cbn [rev app broadcast_rev]. rewrite !Nat.eqb_refl.
  destruct (Nat.eqb_spec b 1) as [-> | _]; [reflexivity |].
  destruct (Nat.eqb_spec b 1); reflexivity.
Qed.

Section RandomFieldNoise.

Context `{FP : FloatPow} `{Sht : GaussianRandomFieldS2.SHT} `{Prec : Precision}.

Import GaussianRandomFieldS2.

(** X24. With noise supplied, [forward] ignores [N] and draws nothing: for
    noise of shape [(B, nlat, nlat + 1)] the result is the same for every
    [N] and every state of the generator, and has shape
    [(B, nlat, 2 * nlat)]. *)
Theorem GRF_forward_explicit_noise (a : Args) (self : t) (xi : Tensor C) (b : nat) :
  init a = Ok self ->
  shape xi = [b; arg_nlat a; (arg_nlat a + 1)%nat] ->
  (forall N N' draw draw',
     forward self N (Some xi) draw = forward self N' (Some xi) draw') /\
  exists u,
    (forall N draw, forward self N (Some xi) draw = Ok u) /\
    shape u = [b; arg_nlat a; (2 * arg_nlat a)%nat].
Proof.
  intros Hinit Hxi.
  destruct (GRF_init_fields _ Hinit) as (_ & Hlat & Hlon & Htab & _).
  split; [reflexivity |].
  unfold forward. cbn [Py.bind Ok]. unfold broadcast_op.
  rewrite Hxi, Htab, broadcast_batch_against_table. cbn [Py.bind Ok].
  unfold isht_call. cbn [shape rev app]. rewrite Hlat, Hlon.
  eexists. split; [intros; reflexivity | reflexivity].
Qed.

End RandomFieldNoise.

Lemma GRF_forward_explicit_noise_witness :
  exists self u,
    @GaussianRandomFieldS2.init Reference.real_power Reference.zero_sht
      Reference.exact_precision Reference.grf_args = Ok self /\
    @GaussianRandomFieldS2.forward Reference.zero_sht self 1
      (Some ReferenceMore.noise_5_2_3) (fun _ => 0) = Ok u /\
    shape u = [5; 2; 4]%nat.
Proof.
  destruct grf_args_returns as (self & Hinit & _).
  destruct (@GRF_forward_explicit_noise Reference.real_power Reference.zero_sht
              Reference.exact_precision Reference.grf_args self
              ReferenceMore.noise_5_2_3 5%nat Hinit eq_refl)
    as (_ & u & Hu & Hshape).
  exists self, u. split; [exact Hinit |]. split; [apply Hu | exact Hshape].
Defined.

Section RandomFieldMoved.

Context `{FP : FloatPow} `{Sht : GaussianRandomFieldS2.SHT} `{Prec : Precision}
        `{Mv : RandomFieldMoves.LayerMoves}.

Import GaussianRandomFieldS2 RandomFieldMoves.

Lemma rebuild_sampler_in_sync (self : t) : sampler_in_sync (rebuild_sampler self).
Proof. reflexivity. Qed.

Lemma moves_in_sync (ms : list Move) (self : t) :
  sampler_in_sync self -> sampler_in_sync (moves ms self).
Proof.
  revert self. induction ms as [| m ms IH]; intros self Hsync.
  - exact Hsync.
  - cbn [moves fold_left]. apply IH. destruct m; apply rebuild_sampler_in_sync.
Qed.

(** X25. The sampler of a constructed object draws around the object's own
    [mean] and [var] buffers, and still does after any sequence of [to] and
    [cuda] calls, whatever the framework does to the buffers in them: the
    two overrides rebuild the sampler from the buffers as they are after
    the move, and change nothing else of what the framework returns. *)
Theorem GRF_sampler_follows_buffers (a : Args) (self : t) (ms : list Move) :
  init a = Ok self ->
  sampler_in_sync self /\
  sampler_in_sync (moves ms self) /\
  (forall args s,
     mean (to args s) = mean (layer_to args s) /\
     var (to args s) = var (layer_to args s) /\
     sqrt_eig (to args s) = sqrt_eig (layer_to args s) /\
     mean (cuda args s) = mean (layer_cuda args s) /\
     var (cuda args s) = var (layer_cuda args s) /\
     sqrt_eig (cuda args s) = sqrt_eig (layer_cuda args s)).
Proof.
  intro Hinit.
  assert (Hsync : sampler_in_sync self).
  { unfold init in Hinit. bind_inv Hinit. bind_inv Hinit. bind_inv Hinit.
    injection Hinit as <-. reflexivity. }
  split; [exact Hsync |]. split; [now apply moves_in_sync |].
  intros args s. repeat split.
Qed.

End RandomFieldMoved.

Lemma GRF_sampler_follows_buffers_witness :
  exists self,
    @GaussianRandomFieldS2.init Reference.real_power Reference.zero_sht
      Reference.exact_precision Reference.grf_args = Ok self /\
    RandomFieldMoves.sampler_in_sync
      (@RandomFieldMoves.moves ReferenceMore.still_moves
         [@RandomFieldMoves.MoveTo ReferenceMore.still_moves tt;
          @RandomFieldMoves.MoveCuda ReferenceMore.still_moves tt] self).
Proof.
  destruct grf_args_returns as (self & Hinit & _).
  exists self. split; [exact Hinit |].
  exact (proj1 (proj2 (@GRF_sampler_follows_buffers Reference.real_power
                         Reference.zero_sht Reference.exact_precision
                         ReferenceMore.still_moves Reference.grf_args self
                         [@RandomFieldMoves.MoveTo ReferenceMore.still_moves tt;
                          @RandomFieldMoves.MoveCuda ReferenceMore.still_moves tt]
                         Hinit))).
Defined.
